(** * linux-driver-management: the composite device tree of [src/lib/device.c]

    A shallow embedding of [LdmDevice] and of the functions of [device.c]
    over an explicit object store.  Devices are GObject instances that
    point at each other ([tree.parent], the values of [tree.kids]), so
    the store maps addresses to instances and every function of the C
    file becomes a function of the store.

    Conventions.
    - A C pointer [LdmDevice *] is an [option loc]; [None] is [NULL].
      A nullable [const gchar *] is an [option string].
    - A function that can dereference an invalid pointer (or hand [NULL]
      to [g_str_hash] / [strcmp]) returns an [option]; [None] stands for
      "the C program has no defined result here".  For the two recursive
      queries [None] also covers a recursion deeper than the given bound.
    - GLib's [GHashTable] with [g_str_hash]/[g_str_equal] is a
      [gmap string _]; its iteration order is the one of [map_to_list].
    - Reference counts are not part of the model: an instance that a
      table releases stays in the store, as it does in C whenever
      somebody else still holds a reference. *)

From Stdlib Require Import ZArith String Ascii.
From stdpp Require Import base option list strings gmap fin_maps.

Local Open Scope string_scope.
Local Open Scope Z_scope.

(** ** Data model *)

(** Addresses of [LdmDevice] instances. *)
Abbreviation loc := positive (only parsing).

(** The [GType] values that [ldm_device_new_from_udev] chooses between. *)
Inductive GType : Type :=
  | LDM_TYPE_DEVICE
  | LDM_TYPE_USB_DEVICE
  | LDM_TYPE_PCI_DEVICE
  | LDM_TYPE_DMI_DEVICE
  | LDM_TYPE_HID_DEVICE
  | LDM_TYPE_BLUETOOTH_DEVICE
  | LDM_TYPE_WIFI_DEVICE.

#[global] Instance GType_eq_dec : EqDecision GType.
Proof. solve_decision. Defined.

(** [enum LdmDeviceType] (device.h). *)
Definition LDM_DEVICE_TYPE_ANY : Z := 0.
Definition LDM_DEVICE_TYPE_AUDIO : Z := Z.shiftl 1 0.
Definition LDM_DEVICE_TYPE_GPU : Z := Z.shiftl 1 1.
Definition LDM_DEVICE_TYPE_HID : Z := Z.shiftl 1 2.
Definition LDM_DEVICE_TYPE_IMAGE : Z := Z.shiftl 1 3.
Definition LDM_DEVICE_TYPE_PCI : Z := Z.shiftl 1 4.
Definition LDM_DEVICE_TYPE_PRINTER : Z := Z.shiftl 1 5.
Definition LDM_DEVICE_TYPE_STORAGE : Z := Z.shiftl 1 6.
Definition LDM_DEVICE_TYPE_VIDEO : Z := Z.shiftl 1 7.
Definition LDM_DEVICE_TYPE_WIRELESS : Z := Z.shiftl 1 8.
Definition LDM_DEVICE_TYPE_USB : Z := Z.shiftl 1 9.
Definition LDM_DEVICE_TYPE_MAX : Z := Z.shiftl 1 10.

(** [enum LdmDeviceAttribute] (device.h). *)
Definition LDM_DEVICE_ATTRIBUTE_NONE : Z := 0.
Definition LDM_DEVICE_ATTRIBUTE_BOOT_VGA : Z := Z.shiftl 1 0.
Definition LDM_DEVICE_ATTRIBUTE_INTERFACE : Z := Z.shiftl 1 1.
Definition LDM_DEVICE_ATTRIBUTE_MAX : Z := Z.shiftl 1 2.

(** Modelled from the spec: [LDM_DEVICE_ATTRIBUTE_ANY], which [device.c]
    passes as the default of the [attributes] property and of
    [ldm_device_get_attributes] and for which device.h has no enumerator.
    The spec gives [ANY] and [NONE] the value 0 ("no declared bits"). *)
Definition LDM_DEVICE_ATTRIBUTE_ANY : Z := 0.

(** Modelled from the spec: [struct _LdmDevice], declared in
    [ldm-private.h].  The fields are the ones [device.c] reads and
    writes, which are the ones of the spec's data model.  The GObject
    header is reduced to the instance's type, and the members [tree],
    [os] and [id] are flattened ([self->tree.kids] is [tree_kids self]). *)
Record LdmDevice : Type := mkLdmDevice {
  g_type : GType;
  tree_parent : option loc;            (* LdmDevice *, not owned   *)
  tree_kids : gmap string loc;         (* sysfs path -> child      *)
  os_sysfs_path : option string;
  os_modalias : option string;
  os_hwdb_info : gmap string string;
  os_devtype : Z;
  os_attributes : Z;
  id_name : option string;
  id_vendor : option string;
  id_product_id : Z;
  id_vendor_id : Z
}.

(** The object store. *)
Abbreviation heap := (gmap positive LdmDevice) (only parsing).

(** Field assignments [self->field = v]. *)
Definition set_tree_parent (v : option loc) (d : LdmDevice) : LdmDevice :=
  mkLdmDevice (g_type d) v (tree_kids d) (os_sysfs_path d) (os_modalias d)
    (os_hwdb_info d) (os_devtype d) (os_attributes d) (id_name d)
    (id_vendor d) (id_product_id d) (id_vendor_id d).

Definition set_tree_kids (v : gmap string loc) (d : LdmDevice) : LdmDevice :=
  mkLdmDevice (g_type d) (tree_parent d) v (os_sysfs_path d) (os_modalias d)
    (os_hwdb_info d) (os_devtype d) (os_attributes d) (id_name d)
    (id_vendor d) (id_product_id d) (id_vendor_id d).

Definition set_os_sysfs_path (v : option string) (d : LdmDevice) : LdmDevice :=
  mkLdmDevice (g_type d) (tree_parent d) (tree_kids d) v (os_modalias d)
    (os_hwdb_info d) (os_devtype d) (os_attributes d) (id_name d)
    (id_vendor d) (id_product_id d) (id_vendor_id d).

Definition set_os_modalias (v : option string) (d : LdmDevice) : LdmDevice :=
  mkLdmDevice (g_type d) (tree_parent d) (tree_kids d) (os_sysfs_path d) v
    (os_hwdb_info d) (os_devtype d) (os_attributes d) (id_name d)
    (id_vendor d) (id_product_id d) (id_vendor_id d).

Definition set_os_hwdb_info (v : gmap string string) (d : LdmDevice) : LdmDevice :=
  mkLdmDevice (g_type d) (tree_parent d) (tree_kids d) (os_sysfs_path d)
    (os_modalias d) v (os_devtype d) (os_attributes d) (id_name d)
    (id_vendor d) (id_product_id d) (id_vendor_id d).

Definition set_os_devtype (v : Z) (d : LdmDevice) : LdmDevice :=
  mkLdmDevice (g_type d) (tree_parent d) (tree_kids d) (os_sysfs_path d)
    (os_modalias d) (os_hwdb_info d) v (os_attributes d) (id_name d)
    (id_vendor d) (id_product_id d) (id_vendor_id d).

Definition set_id_name (v : option string) (d : LdmDevice) : LdmDevice :=
  mkLdmDevice (g_type d) (tree_parent d) (tree_kids d) (os_sysfs_path d)
    (os_modalias d) (os_hwdb_info d) (os_devtype d) (os_attributes d) v
    (id_vendor d) (id_product_id d) (id_vendor_id d).

Definition set_id_vendor (v : option string) (d : LdmDevice) : LdmDevice :=
  mkLdmDevice (g_type d) (tree_parent d) (tree_kids d) (os_sysfs_path d)
    (os_modalias d) (os_hwdb_info d) (os_devtype d) (os_attributes d)
    (id_name d) v (id_product_id d) (id_vendor_id d).

Definition set_id_product_id (v : Z) (d : LdmDevice) : LdmDevice :=
  mkLdmDevice (g_type d) (tree_parent d) (tree_kids d) (os_sysfs_path d)
    (os_modalias d) (os_hwdb_info d) (os_devtype d) (os_attributes d)
    (id_name d) (id_vendor d) v (id_vendor_id d).

Definition set_os_attributes (v : Z) (d : LdmDevice) : LdmDevice :=
  mkLdmDevice (g_type d) (tree_parent d) (tree_kids d) (os_sysfs_path d)
    (os_modalias d) (os_hwdb_info d) (os_devtype d) v (id_name d)
    (id_vendor d) (id_product_id d) (id_vendor_id d).

(** ** The GLib and libc primitives that [device.c] calls *)

(** [g_str_equal] on two valid strings ([strcmp (a, b) == 0]). *)
Definition g_str_equal (a b : string) : bool := String.eqb a b.

(** [g_hash_table_lookup]: [NULL] when the key is absent. *)
Definition g_hash_table_lookup {V} (t : gmap string V) (key : string) : option V :=
  t !! key.

(** [g_hash_table_insert] and [g_hash_table_replace]: the new table, and
    whether the key was absent before.  The two differ only in which copy
    of an equal key they keep; on the contents they agree. *)
Definition g_hash_table_insert {V} (t : gmap string V) (key : string) (value : V)
  : gmap string V * bool :=
  (<[key := value]> t, bool_decide (t !! key = None)).

Definition g_hash_table_replace {V} (t : gmap string V) (key : string) (value : V)
  : gmap string V * bool :=
  (<[key := value]> t, bool_decide (t !! key = None)).

(** [g_hash_table_remove]: the new table, and whether the key was found. *)
Definition g_hash_table_remove {V} (t : gmap string V) (key : string)
  : gmap string V * bool :=
  match t !! key with
  | Some _ => (delete key t, true)
  | None => (t, false)
  end.

(** [g_hash_table_get_values]. *)
Definition g_hash_table_get_values {V} (t : gmap string V) : list V :=
  (map_to_list t).*2.

(** The conversion [%x] of [printf] applied to a [gint]: the argument is
    read as an [unsigned int] and written in lowercase hexadecimal with
    no padding. *)
Definition hex_digit (d : Z) : ascii :=
  match d with
  | 0 => "0" | 1 => "1" | 2 => "2" | 3 => "3" | 4 => "4" | 5 => "5"
  | 6 => "6" | 7 => "7" | 8 => "8" | 9 => "9" | 10 => "a" | 11 => "b"
  | 12 => "c" | 13 => "d" | 14 => "e" | _ => "f"
  end%char.

Fixpoint hex_digits (n : nat) (v : Z) (acc : string) : string :=
  match n with
  | O => acc
  | S n' =>
      let acc' := String (hex_digit (v mod 16)) acc in
      if v / 16 =? 0 then acc' else hex_digits n' (v / 16) acc'
  end.

Definition printf_x (v : Z) : string := hex_digits 8 (v mod 2 ^ 32) "".

(** [g_strdup_printf ("Device %x", product_id)]. *)
Definition g_strdup_printf_Device_x (product_id : Z) : string :=
  "Device " +:+ printf_x product_id.

(** ** Accessors (device.c, lines 294-377, 485-489, 537-541, 590-609)

    Each starts with [g_return_val_if_fail (self != NULL, default)]. *)

Definition ldm_device_get_modalias (h : heap) (self : option loc)
  : option (option string) :=
  match self with
  | None => Some None
  | Some l => dev ← h !! l; Some (os_modalias dev)
  end.

Definition ldm_device_get_name (h : heap) (self : option loc)
  : option (option string) :=
  match self with
  | None => Some None
  | Some l => dev ← h !! l; Some (id_name dev)
  end.

Definition ldm_device_get_path (h : heap) (self : option loc)
  : option (option string) :=
  match self with
  | None => Some None
  | Some l => dev ← h !! l; Some (os_sysfs_path dev)
  end.

Definition ldm_device_get_product_id (h : heap) (self : option loc) : option Z :=
  match self with
  | None => Some 0
  | Some l => dev ← h !! l; Some (id_product_id dev)
  end.

Definition ldm_device_get_vendor (h : heap) (self : option loc)
  : option (option string) :=
  match self with
  | None => Some None
  | Some l => dev ← h !! l; Some (id_vendor dev)
  end.

Definition ldm_device_get_vendor_id (h : heap) (self : option loc) : option Z :=
  match self with
  | None => Some 0
  | Some l => dev ← h !! l; Some (id_vendor_id dev)
  end.

Definition ldm_device_get_device_type (h : heap) (self : option loc) : option Z :=
  match self with
  | None => Some LDM_DEVICE_TYPE_ANY
  | Some l => dev ← h !! l; Some (os_devtype dev)
  end.

Definition ldm_device_get_attributes (h : heap) (self : option loc) : option Z :=
  match self with
  | None => Some LDM_DEVICE_ATTRIBUTE_ANY
  | Some l => dev ← h !! l; Some (os_attributes dev)
  end.

Definition ldm_device_get_parent (h : heap) (self : option loc)
  : option (option loc) :=
  match self with
  | None => Some None
  | Some l => dev ← h !! l; Some (tree_parent dev)
  end.

Definition ldm_device_get_children (h : heap) (self : option loc)
  : option (list loc) :=
  match self with
  | None => Some []
  | Some l => dev ← h !! l; Some (g_hash_table_get_values (tree_kids dev))
  end.

(** ** Recursive queries (device.c, lines 507-530 and 558-581) *)

(** The [while (g_hash_table_iter_next (...))] loop of both queries:
    [test] is the call made on each value; the first [TRUE] leaves the
    function, and the loop falling through gives [FALSE]. *)
Fixpoint walk_children (test : loc → option bool) (entries : list (string * loc))
  : option bool :=
  match entries with
  | [] => Some false
  | (_, value) :: rest =>
      match test value with
      | None => None
      | Some true => Some true
      | Some false => walk_children test rest
      end
  end.

(** [ldm_device_has_type]; [depth] bounds the nesting of the recursive
    calls. *)
Fixpoint ldm_device_has_type (depth : nat) (h : heap) (self : option loc) (mask : Z)
  : option bool :=
  match self with
  | None => Some false
  | Some l =>
      match depth with
      | O => None
      | S depth' =>
          match h !! l with
          | None => None
          | Some dev =>
              if Z.land (os_devtype dev) mask =? mask then Some true
              else walk_children
                     (λ value, ldm_device_has_type depth' h (Some value) mask)
                     (map_to_list (tree_kids dev))
          end
      end
  end.

(** [ldm_device_has_attribute]: the node itself is tested on
    [os.attributes]; the loop over the children calls
    [ldm_device_has_type], as the source does (line 574). *)
Definition ldm_device_has_attribute (depth : nat) (h : heap) (self : option loc)
    (mask : Z) : option bool :=
  match self with
  | None => Some false
  | Some l =>
      match depth with
      | O => None
      | S depth' =>
          match h !! l with
          | None => None
          | Some dev =>
              if Z.land (os_attributes dev) mask =? mask then Some true
              else walk_children
                     (λ value, ldm_device_has_type depth' h (Some value) mask)
                     (map_to_list (tree_kids dev))
          end
      end
  end.

(** ** Child management (device.c, lines 620-673) *)

(** [ldm_device_add_child].  [ldm_device_get_path (child)] is [NULL] for
    a [NULL] child or a child without a path, and [g_hash_table_replace]
    then hashes a [NULL] key.  The table is updated in place; both
    branches of the [if] around the call return. *)
Definition ldm_device_add_child (h : heap) (self child : option loc) : option heap :=
  match self with
  | None => Some h
  | Some p =>
      id ← ldm_device_get_path h child;
      dev ← h !! p;
      key ← id;
      value ← child;
      let '(kids', fresh_key) := g_hash_table_replace (tree_kids dev) key value in
      let h' := <[p := set_tree_kids kids' dev]> h in
      if negb fresh_key then Some h' else Some h'
  end.

(** [ldm_device_remove_child_by_path].  [g_hash_table_remove] works on
    the table in place; both branches of the [if] return. *)
Definition ldm_device_remove_child_by_path (h : heap) (self : option loc)
    (path : option string) : option heap :=
  match self with
  | None => Some h
  | Some p =>
      dev ← h !! p;
      key ← path;
      let '(kids', found) := g_hash_table_remove (tree_kids dev) key in
      let h' := <[p := set_tree_kids kids' dev]> h in
      if negb found then Some h' else Some h'
  end.

(** [ldm_device_remove_child]. *)
Definition ldm_device_remove_child (h : heap) (self child : option loc) : option heap :=
  match self with
  | None => Some h
  | Some _ =>
      id ← ldm_device_get_path h child;
      ldm_device_remove_child_by_path h self id
  end.

(** [ldm_device_get_child_by_path]. *)
Definition ldm_device_get_child_by_path (h : heap) (self : option loc)
    (path : option string) : option (option loc) :=
  match self with
  | None => Some None
  | Some p =>
      dev ← h !! p;
      key ← path;
      Some (g_hash_table_lookup (tree_kids dev) key)
  end.

(** ** Construction (device.c, lines 273-280 and 388-478) *)

(** What [device.c] reads from a [udev_device]. *)
Record udev_device : Type := mk_udev_device {
  udev_device_get_subsystem : option string;
  udev_device_get_syspath : option string;
  udev_device_get_sysattr_value : string → option string
}.

(** A [udev_list_entry *]: the entries in order, name and value; the
    empty list is the [NULL] pointer. *)
Abbreviation udev_list := (list (string * string)) (only parsing).

(** A zero-filled instance after [ldm_device_init]: two empty tables. *)
Definition ldm_device_init (special_type : GType) : LdmDevice :=
  mkLdmDevice special_type None ∅ None None ∅ 0 0 None None 0 0.

(** The subsystem dispatch of lines 399-413. *)
Definition special_type_of (subsystem : string) : GType :=
  if g_str_equal subsystem "usb" then LDM_TYPE_USB_DEVICE
  else if g_str_equal subsystem "pci" then LDM_TYPE_PCI_DEVICE
  else if g_str_equal subsystem "dmi" then LDM_TYPE_DMI_DEVICE
  else if g_str_equal subsystem "hid" then LDM_TYPE_HID_DEVICE
  else if g_str_equal subsystem "bluetooth" then LDM_TYPE_BLUETOOTH_DEVICE
  else if g_str_equal subsystem "ieee80211" then LDM_TYPE_WIFI_DEVICE
  else LDM_TYPE_DEVICE.

(** The [udev_list_entry_foreach] loop of lines 430-439. *)
Definition duplicate_hwdb (properties : udev_list) (t : gmap string string)
  : gmap string string :=
  foldl (λ t entry, (g_hash_table_insert t entry.1 entry.2).1) t properties.

(** Lines 424-459: nothing for a [NULL] list; otherwise the copy of the
    list, then the vendor and the name from the private table. *)
Definition hwdb_phase (properties : udev_list) (self : LdmDevice) : LdmDevice :=
  match properties with
  | [] => self
  | _ :: _ =>
      let self := set_os_hwdb_info (duplicate_hwdb properties (os_hwdb_info self)) self in
      let lookup := g_hash_table_lookup (os_hwdb_info self) "ID_VENDOR_FROM_DATABASE" in
      let lookup := match lookup with
                    | None => g_hash_table_lookup (os_hwdb_info self) "ID_VENDOR"
                    | Some _ => lookup
                    end in
      let self := match lookup with
                  | Some v => set_id_vendor (Some v) self
                  | None => self
                  end in
      let lookup := g_hash_table_lookup (os_hwdb_info self) "ID_MODEL_FROM_DATABASE" in
      let lookup := match lookup with
                    | None => g_hash_table_lookup (os_hwdb_info self) "ID_MODEL"
                    | Some _ => lookup
                    end in
      match lookup with
      | Some v => set_id_name (Some v) self
      | None => self
      end
  end.

(** Lines 417-422 ("the absolute basics"): the path as udev gives it, the
    modalias when the attribute exists. *)
Definition set_basics (device : udev_device) (self : LdmDevice) : LdmDevice :=
  let self := set_os_sysfs_path (udev_device_get_syspath device) self in
  let sysattr := udev_device_get_sysattr_value device "modalias" in
  match sysattr with
  | Some _ => set_os_modalias sysattr self
  | None => self
  end.

(** Lines 473-475. *)
Definition name_fallback (self : LdmDevice) : LdmDevice :=
  match id_name self with
  | None => set_id_name (Some (g_strdup_printf_Device_x (id_product_id self))) self
  | Some _ => self
  end.

Section Construction.

(** The subclasses live in files of their own ([pci-device.c],
    [usb-device.c], ...).  [device.c] reaches them in two places:
    [g_object_new] runs the instance initialiser registered for
    [special_type] after [ldm_device_init], and lines 463-471 call
    four [..._init_private] functions.  Both are taken as given, as
    functions of the instance under construction. *)
Variable subclass_init : GType → LdmDevice → LdmDevice.
Variable ldm_pci_device_init_private : LdmDevice → udev_device → LdmDevice.
Variable ldm_usb_device_init_private : LdmDevice → udev_device → LdmDevice.
Variable ldm_dmi_device_init_private : LdmDevice → udev_device → LdmDevice.
Variable ldm_bluetooth_device_init_private : LdmDevice → udev_device → LdmDevice.

(** [g_object_new (special_type, "parent", parent, NULL)]: instance
    initialisers from the base class down, then the construct-only
    property through [ldm_device_set_property]. *)
Definition g_object_new (special_type : GType) (parent : option loc) : LdmDevice :=
  let self := ldm_device_init special_type in
  let self := match special_type with
              | LDM_TYPE_DEVICE => self
              | _ => subclass_init special_type self
              end in
  set_tree_parent parent self.

(** Lines 463-471. *)
Definition init_private_phase (special_type : GType) (device : udev_device)
    (self : LdmDevice) : LdmDevice :=
  if decide (special_type = LDM_TYPE_PCI_DEVICE) then
    ldm_pci_device_init_private self device
  else if decide (special_type = LDM_TYPE_USB_DEVICE) then
    ldm_usb_device_init_private self device
  else if decide (special_type = LDM_TYPE_DMI_DEVICE) then
    ldm_dmi_device_init_private self device
  else if decide (special_type = LDM_TYPE_BLUETOOTH_DEVICE) then
    ldm_bluetooth_device_init_private self device
  else self.

(** [ldm_device_new_from_udev]: the address of the new instance, one
    that the store does not use yet, and the store that holds it.  A
    [NULL] subsystem reaches [strcmp] through [g_str_equal]. *)
Definition ldm_device_new_from_udev (h : heap) (parent : option loc)
    (device : udev_device) (properties : udev_list) : option (loc * heap) :=
  subsystem ← udev_device_get_subsystem device;
  let special_type := special_type_of subsystem in
  let self := g_object_new special_type parent in
  let self := set_basics device self in
  let self := hwdb_phase properties self in
  let self := init_private_phase special_type device self in
  let self := name_fallback self in
  let l := fresh (dom h) in
  Some (l, <[l := self]> h).

(** The calls a client can make on a store. *)
Inductive call : Type :=
  | NewFromUdev (parent : option loc) (device : udev_device) (properties : udev_list)
  | AddChild (self child : option loc)
  | RemoveChild (self child : option loc)
  | RemoveChildByPath (self : option loc) (path : option string).

Definition run_call (c : call) (h : heap) : option heap :=
  match c with
  | NewFromUdev parent device properties =>
      snd <$> ldm_device_new_from_udev h parent device properties
  | AddChild self child => ldm_device_add_child h self child
  | RemoveChild self child => ldm_device_remove_child h self child
  | RemoveChildByPath self path => ldm_device_remove_child_by_path h self path
  end.

Fixpoint run_calls (cs : list call) (h : heap) : option heap :=
  match cs with
  | [] => Some h
  | c :: cs' => h' ← run_call c h; run_calls cs' h'
  end.

End Construction.

(** ** GObject properties (device.c, lines 56-70, 96-266) *)

(** The property IDs of the anonymous [enum]. *)
Definition PROP_PARENT : nat := 1.
Definition PROP_PATH : nat := 2.
Definition PROP_MODALIAS : nat := 3.
Definition PROP_PRODUCT_ID : nat := 4.
Definition PROP_NAME : nat := 5.
Definition PROP_VENDOR : nat := 6.
Definition PROP_VENDOR_ID : nat := 7.
Definition PROP_DEV_TYPE : nat := 8.
Definition PROP_ATTRIBUTES : nat := 9.
Definition N_PROPS : nat := 10.

(** GLib's [GParamFlags]. *)
Definition G_PARAM_READABLE : Z := Z.shiftl 1 0.
Definition G_PARAM_WRITABLE : Z := Z.shiftl 1 1.
Definition G_PARAM_READWRITE : Z := Z.lor G_PARAM_READABLE G_PARAM_WRITABLE.
Definition G_PARAM_CONSTRUCT : Z := Z.shiftl 1 2.
Definition G_PARAM_CONSTRUCT_ONLY : Z := Z.shiftl 1 3.

(** The two flags types that [ldm-enums.h] registers. *)
Inductive GFlagsType : Type := LDM_TYPE_DEVICE_TYPE | LDM_TYPE_DEVICE_ATTRIBUTE.

(** The value types of the properties of [LdmDevice]. *)
Inductive GValueType : Type :=
  | G_TYPE_POINTER
  | G_TYPE_STRING
  | G_TYPE_INT
  | G_TYPE_FLAGS (flags_type : GFlagsType).

(** A [GValue] that has been initialised: its type and its content. *)
Inductive GValue : Type :=
  | GValuePointer (v_pointer : option loc)
  | GValueString (v_string : option string)
  | GValueInt (v_int : Z)
  | GValueFlags (flags_type : GFlagsType) (v_flags : Z).

Definition G_VALUE_TYPE (value : GValue) : GValueType :=
  match value with
  | GValuePointer _ => G_TYPE_POINTER
  | GValueString _ => G_TYPE_STRING
  | GValueInt _ => G_TYPE_INT
  | GValueFlags flags_type _ => G_TYPE_FLAGS flags_type
  end.

(** [g_value_init]: the zero content of the type. *)
Definition g_value_init (g_type : GValueType) : GValue :=
  match g_type with
  | G_TYPE_POINTER => GValuePointer None
  | G_TYPE_STRING => GValueString None
  | G_TYPE_INT => GValueInt 0
  | G_TYPE_FLAGS flags_type => GValueFlags flags_type 0
  end.

(** The setters and the getter that [device.c] uses.  Each starts with
    a [g_return_if_fail (G_VALUE_HOLDS_... (value))]: on a value of
    another type the setters do nothing and the getter returns [NULL]. *)
Definition g_value_set_pointer (value : GValue) (v : option loc) : GValue :=
  match value with GValuePointer _ => GValuePointer v | _ => value end.

Definition g_value_get_pointer (value : GValue) : option loc :=
  match value with GValuePointer v => v | _ => None end.

Definition g_value_set_string (value : GValue) (v : option string) : GValue :=
  match value with GValueString _ => GValueString v | _ => value end.

Definition g_value_set_int (value : GValue) (v : Z) : GValue :=
  match value with GValueInt _ => GValueInt v | _ => value end.

Definition g_value_set_flags (value : GValue) (v : Z) : GValue :=
  match value with GValueFlags flags_type _ => GValueFlags flags_type v | _ => value end.

(** A [GParamSpec], by the function that makes it. *)
Inductive GParamSpec : Type :=
  | g_param_spec_pointer (name nick blurb : string) (flags : Z)
  | g_param_spec_string (name nick blurb : string) (default_value : option string)
      (flags : Z)
  | g_param_spec_int (name nick blurb : string) (minimum maximum default_value : Z)
      (flags : Z)
  | g_param_spec_flags (name nick blurb : string) (flags_type : GFlagsType)
      (default_value : Z) (flags : Z).

Definition pspec_name (pspec : GParamSpec) : string :=
  match pspec with
  | g_param_spec_pointer name _ _ _ => name
  | g_param_spec_string name _ _ _ _ => name
  | g_param_spec_int name _ _ _ _ _ _ => name
  | g_param_spec_flags name _ _ _ _ _ => name
  end.

Definition pspec_flags (pspec : GParamSpec) : Z :=
  match pspec with
  | g_param_spec_pointer _ _ _ flags => flags
  | g_param_spec_string _ _ _ _ flags => flags
  | g_param_spec_int _ _ _ _ _ _ flags => flags
  | g_param_spec_flags _ _ _ _ _ flags => flags
  end.

Definition pspec_value_type (pspec : GParamSpec) : GValueType :=
  match pspec with
  | g_param_spec_pointer _ _ _ _ => G_TYPE_POINTER
  | g_param_spec_string _ _ _ _ _ => G_TYPE_STRING
  | g_param_spec_int _ _ _ _ _ _ _ => G_TYPE_INT
  | g_param_spec_flags _ _ _ flags_type _ _ => G_TYPE_FLAGS flags_type
  end.

(** [obj_properties] after [ldm_device_class_init] (lines 110-210): the
    array starts out as [N_PROPS] null pointers and is assigned entry by
    entry, in the order of the source. *)
Definition ldm_device_class_init : list (option GParamSpec) :=
  let obj_properties := replicate N_PROPS None in
  let obj_properties :=
    <[PROP_PARENT :=
        Some (g_param_spec_pointer "parent" "Parent device"
                "Parent device for this device"
                (Z.lor G_PARAM_CONSTRUCT_ONLY G_PARAM_READWRITE))]> obj_properties in
  let obj_properties :=
    <[PROP_PATH :=
        Some (g_param_spec_string "path" "The device path"
                "System path for this device" None G_PARAM_READABLE)]> obj_properties in
  let obj_properties :=
    <[PROP_MODALIAS :=
        Some (g_param_spec_string "modalias" "The device modalias"
                "System modalias for this device" None G_PARAM_READABLE)]>
      obj_properties in
  let obj_properties :=
    <[PROP_NAME :=
        Some (g_param_spec_string "name" "The device name"
                "Display name (model) for this device" None G_PARAM_READABLE)]>
      obj_properties in
  let obj_properties :=
    <[PROP_VENDOR :=
        Some (g_param_spec_string "vendor" "The device vendor"
                "The vendor (manufacturer) for this device" None G_PARAM_READABLE)]>
      obj_properties in
  let obj_properties :=
    <[PROP_PRODUCT_ID :=
        Some (g_param_spec_int "product-id" "Product ID" "Hardware product ID"
                0 0 0 G_PARAM_READABLE)]> obj_properties in
  let obj_properties :=
    <[PROP_VENDOR_ID :=
        Some (g_param_spec_int "vendor-id" "Vendor ID" "Hardware vendor ID"
                0 0 0 G_PARAM_READABLE)]> obj_properties in
  let obj_properties :=
    <[PROP_DEV_TYPE :=
        Some (g_param_spec_flags "device-type" "Device type"
                "Composite type for this device" LDM_TYPE_DEVICE_TYPE
                LDM_DEVICE_TYPE_ANY G_PARAM_READABLE)]> obj_properties in
  <[PROP_ATTRIBUTES :=
      Some (g_param_spec_flags "attributes" "Device attributes"
              "Composite attributes for this device" LDM_TYPE_DEVICE_ATTRIBUTE
              LDM_DEVICE_ATTRIBUTE_ANY G_PARAM_READABLE)]> obj_properties.

(** [ldm_device_set_property] (lines 215-228): the instance afterwards,
    and whether [G_OBJECT_WARN_INVALID_PROPERTY_ID] was reached. *)
Definition ldm_device_set_property (self : LdmDevice) (id : nat) (value : GValue)
  : LdmDevice * bool :=
  if decide (id = PROP_PARENT) then
    (set_tree_parent (g_value_get_pointer value) self, false)
  else (self, true).

(** [ldm_device_get_property] (lines 230-266): the value afterwards, and
    whether [G_OBJECT_WARN_INVALID_PROPERTY_ID] was reached. *)
Definition ldm_device_get_property (self : LdmDevice) (id : nat) (value : GValue)
  : GValue * bool :=
  if decide (id = PROP_PARENT) then
    (g_value_set_pointer value (tree_parent self), false)
  else if decide (id = PROP_PATH) then
    (g_value_set_string value (os_sysfs_path self), false)
  else if decide (id = PROP_MODALIAS) then
    (g_value_set_string value (os_modalias self), false)
  else if decide (id = PROP_NAME) then
    (g_value_set_string value (id_name self), false)
  else if decide (id = PROP_PRODUCT_ID) then
    (g_value_set_int value (id_product_id self), false)
  else if decide (id = PROP_VENDOR) then
    (g_value_set_string value (id_vendor self), false)
  else if decide (id = PROP_VENDOR_ID) then
    (g_value_set_int value (id_vendor_id self), false)
  else if decide (id = PROP_DEV_TYPE) then
    (g_value_set_flags value (os_devtype self), false)
  else if decide (id = PROP_ATTRIBUTES) then
    (g_value_set_flags value (os_attributes self), false)
  else (value, true).

(** ** The monitor's callbacks (monitor.c, lines 97-115) *)

(** A call of [g_message]: the format and the string arguments, as they
    are passed ([None] is a [NULL] argument). *)
Record log_message : Type := g_message {
  message_format : string;
  message_args : list (option string)
}.

(** [ldm_daemon_device_added]: the messages it logs, in order.  The
    daemon and the user data are unused.  [depth] bounds the recursion
    of the two queries; the result is [None] when an accessor or a query
    has none. *)
Definition ldm_daemon_device_added (depth : nat) (h : heap) (device : option loc)
  : option (list log_message) :=
  vendor ← ldm_device_get_vendor h device;
  name ← ldm_device_get_name h device;
  let log := [g_message "ldm_daemon_device_added(): %s %s" [vendor; name]] in
  hid ← ldm_device_has_type depth h device LDM_DEVICE_TYPE_HID;
  let log := if (hid : bool) then app log [g_message "HID device!" []] else log in
  storage ← ldm_device_has_type depth h device LDM_DEVICE_TYPE_STORAGE;
  let log := if (storage : bool) then app log [g_message "Storage device!" []] else log in
  Some log.

(** [ldm_daemon_device_removed]. *)
Definition ldm_daemon_device_removed (path : option string) : list log_message :=
  [g_message "ldm_daemon_device_removed: %s" [path]].

(** ** The vocabulary of the statements *)

(** [kid h l key c]: in store [h], the table of [l] maps [key] to [c]. *)
Definition kid (h : heap) (l : loc) (key : string) (c : loc) : Prop :=
  ∃ dev, h !! l = Some dev ∧ tree_kids dev !! key = Some c.

(** [reach h l n]: [n] is [l] or lies in the subtree below [l]. *)
Inductive reach (h : heap) : loc → loc → Prop :=
  | reach_self l : reach h l l
  | reach_kid l key c n : kid h l key c → reach h c n → reach h l n.

(** [subtree_within d h l]: every chain of children that starts at [l]
    stays inside the store and ends after fewer than [d] steps.  This is
    what "the structure below [l] is a finite tree (or DAG)" means for
    the recursion of the queries; a cycle below [l] fails it for every
    [d]. *)
Fixpoint subtree_within (d : nat) (h : heap) (l : loc) : bool :=
  match d with
  | O => false
  | S d' =>
      match h !! l with
      | None => false
      | Some dev =>
          forallb (λ entry, subtree_within d' h entry.2) (map_to_list (tree_kids dev))
      end
  end.

(** [(x & mask) == mask]. *)
Definition matches (x mask : Z) : Prop := Z.land x mask = mask.

(** [sole_owner h p path c]: the only table entry of the store that
    points at [c] is the entry [path] of [p] ("the parent takes exclusive
    ownership of the child"). *)
Definition sole_owner (h : heap) (p : loc) (path : string) (c : loc) : Prop :=
  ∀ l key, kid h l key c → l = p ∧ key = path.

(** [keyed_by_path h]: every table entry of the store has a child of the
    store as its value and the path of that child as its key. *)
Definition keyed_by_path (h : heap) : Prop :=
  ∀ l key c, kid h l key c →
             ∃ cdev, h !! c = Some cdev ∧ os_sysfs_path cdev = Some key.

(** What every call leaves alone in the instances that exist already. *)
Definition same_links (d d' : LdmDevice) : Prop :=
  tree_parent d' = tree_parent d ∧ os_sysfs_path d' = os_sysfs_path d ∧
  g_type d' = g_type d.

Definition preserves_links (h h' : heap) : Prop :=
  ∀ q dev, h !! q = Some dev → ∃ dev', h' !! q = Some dev' ∧ same_links dev dev'.

(** The value that the entries of a udev list give a key: the one of the
    last entry with that name ([g_hash_table_insert] overwrites). *)
Fixpoint last_value (properties : udev_list) (key : string) : option string :=
  match properties with
  | [] => None
  | (name, value) :: rest =>
      match last_value rest key with
      | Some v => Some v
      | None => if decide (name = key) then Some value else None
      end
  end.

(** [first_of a b c]: [a] if set, else [b] if set, else [c]. *)
Definition first_of {A} (a b c : option A) : option A :=
  match a with
  | Some _ => a
  | None => match b with Some _ => b | None => c end
  end.

(** Reading a lowercase hexadecimal numeral back, to say what [printf_x]
    writes. *)
Fixpoint digit_index (c : ascii) (digits : string) (i : Z) : option Z :=
  match digits with
  | EmptyString => None
  | String d rest => if Ascii.eqb c d then Some i else digit_index c rest (i + 1)
  end.

Definition hex_digit_value (c : ascii) : option Z :=
  digit_index c "0123456789abcdef" 0.

Fixpoint hex_value (s : string) : option Z :=
  match s with
  | EmptyString => Some 0
  | String c rest =>
      d ← hex_digit_value c;
      v ← hex_value rest;
      Some (d * 16 ^ Z.of_nat (String.length rest) + v)
  end.

(** Initialisers that do nothing. *)
Definition no_subclass_init (ty : GType) (self : LdmDevice) : LdmDevice := self.
Definition no_init_private (self : LdmDevice) (device : udev_device) : LdmDevice :=
  self.

(** An initialiser of a subclass works on the identity and OS fields of
    the instance; the GObject header (the type) and the [tree] member
    (the construct-only parent link, the table of children) are not its
    to change. *)
Definition keeps_header (f : LdmDevice → udev_device → LdmDevice) : Prop :=
  ∀ self device,
    g_type (f self device) = g_type self ∧
    tree_parent (f self device) = tree_parent self ∧
    tree_kids (f self device) = tree_kids self.

Definition initialisers_keep_header
    (subclass_init : GType → LdmDevice → LdmDevice)
    (ldm_pci_device_init_private ldm_usb_device_init_private
     ldm_dmi_device_init_private ldm_bluetooth_device_init_private
       : LdmDevice → udev_device → LdmDevice) : Prop :=
  (∀ ty self, g_type (subclass_init ty self) = g_type self ∧
              tree_kids (subclass_init ty self) = tree_kids self) ∧
  keeps_header ldm_pci_device_init_private ∧
  keeps_header ldm_usb_device_init_private ∧
  keeps_header ldm_dmi_device_init_private ∧
  keeps_header ldm_bluetooth_device_init_private.

(** ** Example data *)

(** A small store: a PCI GPU at address 1 that owns a HID child at
    address 2, and at address 3 a second instance with the path of the
    child, constructed for the same parent and not attached. *)
Definition example_child_path : string := "/sys/devices/pci0000:00/0000:00:02.0/hid1".

Definition example_root : LdmDevice :=
  mkLdmDevice LDM_TYPE_PCI_DEVICE None {[ example_child_path := 2%positive ]}
    (Some "/sys/devices/pci0000:00/0000:00:02.0") None ∅
    (Z.lor LDM_DEVICE_TYPE_PCI LDM_DEVICE_TYPE_GPU) LDM_DEVICE_ATTRIBUTE_BOOT_VGA
    (Some "GPU") None 16 32902.

Definition example_child : LdmDevice :=
  mkLdmDevice LDM_TYPE_HID_DEVICE (Some 1%positive) ∅ (Some example_child_path)
    None ∅ LDM_DEVICE_TYPE_HID LDM_DEVICE_ATTRIBUTE_NONE (Some "Pad") None 0 0.

Definition example_replacement : LdmDevice :=
  mkLdmDevice LDM_TYPE_DEVICE (Some 1%positive) ∅ (Some example_child_path)
    None ∅ LDM_DEVICE_TYPE_STORAGE LDM_DEVICE_ATTRIBUTE_NONE (Some "Disk") None 0 0.

Definition example_store : gmap positive LdmDevice :=
  {[ 1%positive := example_root; 2%positive := example_child;
     3%positive := example_replacement ]}.

(** A stand-in for the PCI initialiser, which is not part of [device.c]:
    it marks the device as PCI and gives it the product id 0x10. *)
Definition example_pci_init_private (self : LdmDevice) (device : udev_device)
  : LdmDevice :=
  set_id_product_id 16
    (set_os_devtype (Z.lor (os_devtype self) LDM_DEVICE_TYPE_PCI) self).

Definition example_udev (subsystem : option string) : udev_device :=
  mk_udev_device subsystem (Some "/sys/devices/pci0000:00/0000:00:1f.3")
    (λ attr, if String.eqb attr "modalias" then Some "pci:v00008086d00000010" else None).

(** A USB device without attributes whose interface has the attribute
    [INTERFACE] and the types [USB|AUDIO].  Below the node itself
    [ldm_device_has_attribute] reads [os.devtype]: asked for
    [INTERFACE] it answers [FALSE] although the child has the attribute,
    and asked for [BOOT_VGA], the value of [LDM_DEVICE_TYPE_AUDIO], it
    answers [TRUE] although no node has that attribute. *)
Definition example_usb_store : gmap positive LdmDevice :=
  {[ 1%positive :=
       mkLdmDevice LDM_TYPE_USB_DEVICE None {[ "/sys/bus/usb/1-1/1-1:1.0" := 2%positive ]}
         (Some "/sys/bus/usb/1-1") None ∅ LDM_DEVICE_TYPE_USB
         LDM_DEVICE_ATTRIBUTE_NONE (Some "Headset") None 0 0;
     2%positive :=
       mkLdmDevice LDM_TYPE_USB_DEVICE (Some 1%positive) ∅
         (Some "/sys/bus/usb/1-1/1-1:1.0") None ∅
         (Z.lor LDM_DEVICE_TYPE_USB LDM_DEVICE_TYPE_AUDIO)
         LDM_DEVICE_ATTRIBUTE_INTERFACE (Some "Headset") None 0 0 ]}.

(** A construction on the example store, followed by calls on the new
    node and on its parent. *)
Definition example_properties : list (string * string) :=
  [("ID_MODEL", "Foo"); ("ID_VENDOR", "Acme");
   ("ID_VENDOR_FROM_DATABASE", "Acme Corporation")].

Definition example_new (subsystem : option string)
  : option (positive * gmap positive LdmDevice) :=
  ldm_device_new_from_udev no_subclass_init example_pci_init_private
    no_init_private no_init_private no_init_private
    example_store (Some 1%positive) (example_udev subsystem) example_properties.

Definition example_new_store : gmap positive LdmDevice :=
  default ∅ (snd <$> example_new (Some "pci")).

Definition example_calls : list call :=
  [AddChild (Some 1%positive) (Some 4%positive);
   AddChild (Some 4%positive) (Some 2%positive);
   RemoveChildByPath (Some 1%positive) (Some example_child_path);
   NewFromUdev None (example_udev (Some "usb")) [];
   RemoveChild (Some 1%positive) (Some 4%positive)].

Definition example_final_store : gmap positive LdmDevice :=
  default ∅ (run_calls no_subclass_init example_pci_init_private
               no_init_private no_init_private no_init_private
               example_calls example_new_store).

(** The example store after the replacement has been added to the
    root. *)
Definition example_added_store : gmap positive LdmDevice :=
  default ∅ (ldm_device_add_child example_store (Some 1%positive) (Some 3%positive)).

(** A store built from nothing: a PCI device, a HID device constructed
    for it, and the call that attaches the second to the first. *)
Definition example_build_calls : list call :=
  [NewFromUdev None (example_udev (Some "pci")) example_properties;
   NewFromUdev (Some 1%positive) (example_udev (Some "hid")) [];
   AddChild (Some 1%positive) (Some 2%positive)].

Definition example_built_store : gmap positive LdmDevice :=
  default ∅ (run_calls no_subclass_init example_pci_init_private
               no_init_private no_init_private no_init_private
               example_build_calls ∅).

(** Two instances without a model, as they are when the name fallback
    runs. *)
Definition example_unnamed (product_id : Z) : LdmDevice :=
  mkLdmDevice LDM_TYPE_PCI_DEVICE None ∅ (Some "/sys/devices/pci0000:00/0000:00:1f.3")
    None ∅ LDM_DEVICE_TYPE_PCI LDM_DEVICE_ATTRIBUTE_NONE None None product_id 32902.

(** A store that the API can build and that is not a tree: the node at
    address 1 after [ldm_device_add_child (node, node)]. *)
Definition example_cycle : gmap positive LdmDevice :=
  {[ 1%positive :=
       mkLdmDevice LDM_TYPE_DEVICE None {[ "/sys/devices/loop" := 1%positive ]}
         (Some "/sys/devices/loop") None ∅ LDM_DEVICE_TYPE_ANY
         LDM_DEVICE_ATTRIBUTE_NONE (Some "Device 0") None 0 0 ]}.

(** ** Basic facts *)

Lemma set_tree_kids_same dev : set_tree_kids (tree_kids dev) dev = dev.
Proof. by destruct dev. Qed.

Lemma subtree_within_S d h l dev :
  h !! l = Some dev →
  subtree_within (S d) h l = true ↔
  ∀ key c, tree_kids dev !! key = Some c → subtree_within d h c = true.
Proof.
  intros Hl. simpl. rewrite Hl, forallb_forall. split.
  - intros H key c Hc. apply (H (key, c)).
    apply list_elem_of_In, elem_of_map_to_list, Hc.
  - intros H [key c] Hin. apply (H key).
    by apply elem_of_map_to_list, list_elem_of_In.
Qed.

Lemma subtree_within_lookup d h l :
  subtree_within d h l = true → ∃ d' dev, d = S d' ∧ h !! l = Some dev.
Proof.
  destruct d as [|d']; [done|]. simpl.
  destruct (h !! l) as [dev|]; [|done]. eauto.
Qed.

Lemma subtree_within_mono d d' h l :
  (d ≤ d')%nat → subtree_within d h l = true → subtree_within d' h l = true.
Proof.
  revert d' l. induction d as [|d IH]; intros d' l Hle Hd; [done|].
  destruct d' as [|d']; [lia|].
  destruct (subtree_within_lookup _ _ _ Hd) as (? & dev & _ & Hl).
  rewrite (subtree_within_S _ _ _ _ Hl) in Hd.
  apply (subtree_within_S _ _ _ _ Hl). intros key c Hc.
  apply IH; [lia|]. by apply (Hd key).
Qed.

(** The loop over the children, when every call in it returns. *)
Lemma walk_children_total (test : loc → option bool) entries :
  (∀ key c, (key, c) ∈ entries → is_Some (test c)) →
  ∃ b, walk_children test entries = Some b ∧
       (b = true ↔ ∃ key c, (key, c) ∈ entries ∧ test c = Some true).
Proof.
  induction entries as [|[key c] rest IH]; intros Hall.
  - exists false. split; [done|]. split; [done|].
    intros (? & ? & Hin & _). by apply elem_of_nil in Hin.
  - destruct (Hall key c) as [b Hb]; [left|]. simpl. rewrite Hb.
    destruct b.
    + exists true. split; [done|]. split; [|done].
      intros _. exists key, c. split; [left | done].
    + destruct IH as (b & Hw & Hiff).
      { intros k' c' Hin. apply (Hall k'). by right. }
      exists b. split; [done|]. rewrite Hiff. split.
      * intros (k' & c' & Hin & Ht). exists k', c'. split; [by right | done].
      * intros (k' & c' & Hin & Ht). apply elem_of_cons in Hin as [Heq|Hin].
        -- injection Heq as -> ->. congruence.
        -- eauto.
Qed.

(** GLib leaves the order of the iteration open.  When every call
    returns, the order does not show in the result. *)
Lemma walk_children_order (test : loc → option bool) entries entries' :
  entries ≡ₚ entries' →
  (∀ key c, (key, c) ∈ entries → is_Some (test c)) →
  walk_children test entries = walk_children test entries'.
Proof.
  intros Hperm Hall.
  destruct (walk_children_total test entries Hall) as (b & Hb & Hiff).
  destruct (walk_children_total test entries') as (b' & Hb' & Hiff').
  { intros key c Hin. apply (Hall key). by rewrite Hperm. }
  rewrite Hb, Hb'. f_equal.
  assert (b = true ↔ b' = true) as Hbb.
  { rewrite Hiff, Hiff'. by setoid_rewrite Hperm. }
  destruct b, b'; try done; [by destruct (proj1 Hbb) | by destruct (proj2 Hbb)].
Qed.

(** A result of the loop does not change when the calls in it are
    replaced by calls that return the same where the first returned. *)
Lemma walk_children_ext (test test' : loc → option bool) entries b :
  (∀ c r, test c = Some r → test' c = Some r) →
  walk_children test entries = Some b → walk_children test' entries = Some b.
Proof.
  intros Hext. induction entries as [|[key c] rest IH]; [done|]. simpl.
  destruct (test c) as [r|] eqn:Hr; [|done].
  rewrite (Hext _ _ Hr). destruct r; [done | exact IH].
Qed.

(** A deeper bound does not change a result. *)
Lemma ldm_device_has_type_mono d d' h self mask b :
  (d ≤ d')%nat →
  ldm_device_has_type d h self mask = Some b →
  ldm_device_has_type d' h self mask = Some b.
Proof.
  revert d' self b. induction d as [|d IH]; intros d' self b Hle.
  - destruct self; [done|]. by destruct d'.
  - destruct self as [l|]; [|by destruct d'].
    destruct d' as [|d']; [lia|]. simpl.
    destruct (h !! l) as [dev|]; [|done].
    destruct (Z.land (os_devtype dev) mask =? mask); [done|].
    apply walk_children_ext. intros c r. apply IH. lia.
Qed.

(** ** The conversion [%x] *)

Lemma hex_digit_value_digit d : 0 ≤ d < 16 → hex_digit_value (hex_digit d) = Some d.
Proof.
  intros Hd.
  assert (d = 0 ∨ d = 1 ∨ d = 2 ∨ d = 3 ∨ d = 4 ∨ d = 5 ∨ d = 6 ∨ d = 7 ∨ d = 8 ∨
          d = 9 ∨ d = 10 ∨ d = 11 ∨ d = 12 ∨ d = 13 ∨ d = 14 ∨ d = 15) as Hcases by lia.
  repeat (destruct Hcases as [->|Hcases]; [reflexivity|]). by subst.
Qed.

Lemma hex_digit_nonzero d : 0 < d < 16 → hex_digit d ≠ "0"%char.
Proof.
  intros Hd.
  assert (d = 1 ∨ d = 2 ∨ d = 3 ∨ d = 4 ∨ d = 5 ∨ d = 6 ∨ d = 7 ∨ d = 8 ∨
          d = 9 ∨ d = 10 ∨ d = 11 ∨ d = 12 ∨ d = 13 ∨ d = 14 ∨ d = 15) as Hcases by lia.
  repeat (destruct Hcases as [->|Hcases]; [discriminate|]). by subst.
Qed.

Lemma hex_digits_value n v acc a :
  0 ≤ v < 16 ^ Z.of_nat n →
  hex_value acc = Some a →
  hex_value (hex_digits n v acc) = Some (v * 16 ^ Z.of_nat (String.length acc) + a).
Proof.
  revert v acc a. induction n as [|n IH]; intros v acc a Hv Hacc.
  - simpl in *. assert (v = 0) as -> by lia. by rewrite Hacc.
  - assert (16 ^ Z.of_nat (S n) = 16 * 16 ^ Z.of_nat n) as Hpow.
    { rewrite Nat2Z.inj_succ. apply Z.pow_succ_r. lia. }
    pose proof (Z.div_mod v 16 ltac:(lia)) as Hdm.
    pose proof (Z.mod_pos_bound v 16 ltac:(lia)) as Hmod.
    assert (hex_value (String (hex_digit (v `mod` 16)) acc)
            = Some (v `mod` 16 * 16 ^ Z.of_nat (String.length acc) + a)) as Hacc'.
    { simpl. rewrite hex_digit_value_digit by done. simpl. by rewrite Hacc. }
    simpl hex_digits. destruct (Z.eqb_spec (v `div` 16) 0) as [H0|H0].
    + rewrite Hacc'. do 2 f_equal. lia.
    + assert (0 ≤ v `div` 16 < 16 ^ Z.of_nat n) as Hq.
      { split; [apply Z.div_pos; lia|]. apply Z.div_lt_upper_bound; lia. }
      rewrite (IH _ _ _ Hq Hacc').
      f_equal. cbn [String.length]. rewrite Nat2Z.inj_succ, Z.pow_succ_r by lia.
      set (X := 16 ^ Z.of_nat (String.length acc)). nia.
Qed.

Lemma hex_digits_head n v acc :
  0 < v < 16 ^ Z.of_nat n →
  ∃ c rest, hex_digits n v acc = String c rest ∧ c ≠ "0"%char.
Proof.
  revert v acc. induction n as [|n IH]; intros v acc Hv; [simpl in Hv; lia|].
  assert (16 ^ Z.of_nat (S n) = 16 * 16 ^ Z.of_nat n) as Hpow.
  { rewrite Nat2Z.inj_succ. apply Z.pow_succ_r. lia. }
  pose proof (Z.div_mod v 16 ltac:(lia)) as Hdm.
  pose proof (Z.mod_pos_bound v 16 ltac:(lia)) as Hmod.
  simpl. destruct (Z.eqb_spec (v `div` 16) 0) as [H0|H0].
  - eexists _, _. split; [done|]. apply hex_digit_nonzero. lia.
  - apply IH. split.
    + assert (0 ≤ v `div` 16) by (apply Z.div_pos; lia). lia.
    + apply Z.div_lt_upper_bound; lia.
Qed.

(** [printf_x] writes lowercase hexadecimal digits only, and they are
    the numeral of the argument read as an [unsigned int]. *)
Lemma printf_x_value v : hex_value (printf_x v) = Some (v `mod` 2 ^ 32).
Proof.
  unfold printf_x.
  rewrite (hex_digits_value 8 (v `mod` 2 ^ 32) "" 0); [f_equal; simpl; lia| |done].
  pose proof (Z.mod_pos_bound v (2 ^ 32) ltac:(lia)). simpl. lia.
Qed.

(** No padding: the numeral starts with a non-zero digit, unless it is
    the single digit of the value 0. *)
Lemma printf_x_no_padding v :
  (v `mod` 2 ^ 32 = 0 ∧ printf_x v = "0") ∨
  (∃ c rest, printf_x v = String c rest ∧ c ≠ "0"%char).
Proof.
  unfold printf_x. destruct (decide (v `mod` 2 ^ 32 = 0)) as [->|Hne].
  - by left.
  - right. apply hex_digits_head.
    pose proof (Z.mod_pos_bound v (2 ^ 32) ltac:(lia)). simpl. lia.
Qed.

(** ** The recursive queries *)

(** Within the bound, [ldm_device_has_type] returns, and it returns
    [TRUE] exactly when some node of the subtree matches. *)
Lemma ldm_device_has_type_within d h l mask :
  subtree_within d h l = true →
  ∃ b, ldm_device_has_type d h (Some l) mask = Some b ∧
       (b = true ↔
        ∃ n ndev, reach h l n ∧ h !! n = Some ndev ∧ matches (os_devtype ndev) mask).
Proof.
  revert l. induction d as [|d IH]; intros l Hd; [done|].
  destruct (subtree_within_lookup _ _ _ Hd) as (_ & dev & _ & Hl).
  rewrite (subtree_within_S _ _ _ _ Hl) in Hd.
  simpl. rewrite Hl.
  destruct (Z.eqb_spec (Z.land (os_devtype dev) mask) mask) as [Hm|Hm].
  { exists true. split; [done|]. split; [|done].
    intros _. exists l, dev. split; [constructor | done]. }
  destruct (walk_children_total
              (λ value, ldm_device_has_type d h (Some value) mask)
              (map_to_list (tree_kids dev))) as (b & Hw & Hiff).
  { intros key c Hin. apply elem_of_map_to_list in Hin.
    destruct (IH c (Hd _ _ Hin)) as (bc & Hbc & _). by exists bc. }
  exists b. split; [done|]. rewrite Hiff. split.
  - intros (key & c & Hin & Ht). apply elem_of_map_to_list in Hin.
    destruct (IH c (Hd _ _ Hin)) as (bc & Hbc & Hc).
    assert (bc = true) as -> by congruence.
    destruct Hc as [Hc _]. destruct (Hc eq_refl) as (n & ndev & Hr & Hn & Hmn).
    exists n, ndev. split; [|done].
    apply (reach_kid h l key c n); [by exists dev | done].
  - intros (n & ndev & Hr & Hn & Hmn).
    inversion Hr as [|? key c ? (dev' & Hl' & Hc) Hr']; subst.
    { unfold matches in Hmn. congruence. }
    assert (dev' = dev) as -> by congruence.
    exists key, c. split; [by apply elem_of_map_to_list|].
    destruct (IH c (Hd _ _ Hc)) as (bc & Hbc & Hiffc).
    rewrite Hbc. f_equal. apply Hiffc. eauto.
Qed.

(** C1.  For a node [l] whose subtree is finite (every chain of children
    below it ends, within [d] levels), [ldm_device_has_type] returns for
    every bound from [d] on, and what it returns is [TRUE] if and only if
    [(n.device_type & mask) == mask] holds for some [n] among [l] and the
    nodes reachable from it through the children tables. *)
Theorem has_type_iff_subtree_match (h : heap) (d : nat) (l : loc) (mask : Z) :
  subtree_within d h l = true →
  ∃ b : bool,
    (∀ d', (d ≤ d')%nat → ldm_device_has_type d' h (Some l) mask = Some b) ∧
    (b = true ↔
     ∃ n ndev, reach h l n ∧ h !! n = Some ndev ∧
               Z.land (os_devtype ndev) mask = mask).
Proof.
  intros Hd. destruct (ldm_device_has_type_within d h l mask Hd) as (b & Hb & Hiff).
  exists b. split; [|exact Hiff].
  intros d' Hle. by apply (ldm_device_has_type_mono d d').
Qed.

(** C2.  For a node [l] with a finite subtree, [ldm_device_has_attribute]
    returns, and what it returns is [TRUE] if and only if
    [(l.attributes & mask) == mask], or [ldm_device_has_type (child, mask)]
    is [TRUE] for some child of [l]: below the node itself the mask is
    tested against the [device_type] of the descendants, not against
    their attributes. *)
Theorem has_attribute_iff_self_or_child_type (h : heap) (d : nat) (l : loc)
    (dev : LdmDevice) (mask : Z) :
  h !! l = Some dev →
  subtree_within d h l = true →
  ∃ b : bool,
    (∀ d', (d ≤ d')%nat → ldm_device_has_attribute d' h (Some l) mask = Some b) ∧
    (b = true ↔
     Z.land (os_attributes dev) mask = mask ∨
     ∃ key c, tree_kids dev !! key = Some c ∧
              ldm_device_has_type d h (Some c) mask = Some true) ∧
    (b = true ↔
     Z.land (os_attributes dev) mask = mask ∨
     ∃ key c n ndev, tree_kids dev !! key = Some c ∧ reach h c n ∧
                     h !! n = Some ndev ∧ Z.land (os_devtype ndev) mask = mask).
Proof.
  intros Hl Hd.
  destruct d as [|d]; [done|].
  rewrite (subtree_within_S _ _ _ _ Hl) in Hd.
  assert (Hkids : ∀ key c, tree_kids dev !! key = Some c →
            ∃ bc, ldm_device_has_type d h (Some c) mask = Some bc ∧
                  ldm_device_has_type (S d) h (Some c) mask = Some bc ∧
                  (bc = true ↔ ∃ n ndev, reach h c n ∧ h !! n = Some ndev ∧
                                         matches (os_devtype ndev) mask)).
  { intros key c Hc.
    destruct (ldm_device_has_type_within d h c mask (Hd _ _ Hc)) as (bc & Hbc & Hiff).
    exists bc. split; [done|]. split; [|done].
    apply (ldm_device_has_type_mono d (S d)); [lia | done]. }
  destruct (Z.eqb_spec (Z.land (os_attributes dev) mask) mask) as [Hm|Hm].
  { exists true. split; [|split; by split; [left|]].
    intros [|d'] Hle; [lia|]. simpl. rewrite Hl.
    by rewrite (proj2 (Z.eqb_eq _ _) Hm). }
  destruct (walk_children_total
              (λ value, ldm_device_has_type d h (Some value) mask)
              (map_to_list (tree_kids dev))) as (b & Hw & Hiff).
  { intros key c Hin. apply elem_of_map_to_list in Hin.
    destruct (Hkids _ _ Hin) as (bc & Hbc & _). by exists bc. }
  exists b. split; [|split].
  - intros [|d'] Hle; [lia|]. simpl. rewrite Hl.
    rewrite (proj2 (Z.eqb_neq _ _) Hm).
    revert Hw. apply walk_children_ext. intros c r.
    apply ldm_device_has_type_mono. lia.
  - rewrite Hiff. split.
    + intros (key & c & Hin & Ht). right. exists key, c.
      apply elem_of_map_to_list in Hin. split; [done|].
      destruct (Hkids _ _ Hin) as (bc & Hbc & HbcS & _). congruence.
    + intros [?|(key & c & Hc & Ht)]; [done|]. exists key, c.
      split; [by apply elem_of_map_to_list|].
      destruct (Hkids _ _ Hc) as (bc & Hbc & HbcS & _). congruence.
  - rewrite Hiff. split.
    + intros (key & c & Hin & Ht). right.
      apply elem_of_map_to_list in Hin.
      destruct (Hkids _ _ Hin) as (bc & Hbc & _ & Hiffc).
      assert (bc = true) as -> by congruence.
      destruct (proj1 Hiffc eq_refl) as (n & ndev & ? & ? & ?).
      by exists key, c, n, ndev.
    + intros [?|(key & c & n & ndev & Hc & Hr & Hn & Hmn)]; [done|].
      exists key, c. split; [by apply elem_of_map_to_list|].
      destruct (Hkids _ _ Hc) as (bc & Hbc & _ & Hiffc).
      rewrite Hbc. f_equal. apply Hiffc. by exists n, ndev.
Qed.

(** C10.  On a valid node the mask 0 ([LDM_DEVICE_TYPE_ANY],
    [LDM_DEVICE_ATTRIBUTE_NONE]) always passes the test at the node
    itself: both queries return [TRUE], whatever the node's bits and
    whatever lies below it. *)
Theorem zero_mask_always_matches (h : heap) (l : loc) (dev : LdmDevice) (d : nat) :
  h !! l = Some dev →
  ldm_device_has_type (S d) h (Some l) LDM_DEVICE_TYPE_ANY = Some true ∧
  ldm_device_has_attribute (S d) h (Some l) LDM_DEVICE_ATTRIBUTE_NONE = Some true.
Proof.
  intros Hl. unfold LDM_DEVICE_TYPE_ANY, LDM_DEVICE_ATTRIBUTE_NONE. simpl.
  by rewrite Hl, !Z.land_0_r.
Qed.

(** C8.  Every read accessor and both queries absorb a [NULL] device:
    they return their default ([LDM_DEVICE_TYPE_ANY], the empty
    attribute mask, [FALSE], [NULL], 0) in every store, and do not fail. *)
Theorem null_device_is_absorbed (h : heap) (mask : Z) (d : nat) :
  ldm_device_get_device_type h None = Some LDM_DEVICE_TYPE_ANY ∧
  ldm_device_get_attributes h None = Some LDM_DEVICE_ATTRIBUTE_NONE ∧
  ldm_device_has_type d h None mask = Some false ∧
  ldm_device_has_attribute d h None mask = Some false ∧
  ldm_device_get_name h None = Some None ∧
  ldm_device_get_vendor h None = Some None ∧
  ldm_device_get_path h None = Some None ∧
  ldm_device_get_modalias h None = Some None ∧
  ldm_device_get_product_id h None = Some 0 ∧
  ldm_device_get_vendor_id h None = Some 0.
Proof. by destruct d. Qed.

(** ** Child management *)

(** A node that is reached from another one is the value of some entry. *)
Lemma reach_last_edge h a n :
  reach h a n → a = n ∨ ∃ l key, kid h l key n.
Proof.
  induction 1 as [|a key c n Hk _ IH]; [by left|]. right.
  destruct IH as [->|IH]; [by exists a, key | done].
Qed.

Lemma kid_reach h l key c : kid h l key c → reach h l c.
Proof. intros Hk. apply (reach_kid h l key c c Hk). constructor. Qed.

(** The entries of a store after [ldm_device_add_child]. *)
Lemma kid_after_replace h p pdev path c l key n :
  h !! p = Some pdev →
  kid (<[p := set_tree_kids (<[path := c]> (tree_kids pdev)) pdev]> h) l key n →
  (l = p ∧ key = path ∧ n = c) ∨ (¬ (l = p ∧ key = path) ∧ kid h l key n).
Proof.
  intros Hp (dev & Hl & Hn).
  destruct (decide (l = p)) as [->|Hne].
  - rewrite lookup_insert_eq in Hl. injection Hl as <-. simpl in Hn.
    destruct (decide (key = path)) as [->|Hk].
    + rewrite lookup_insert_eq in Hn. left. by injection Hn as <-.
    + rewrite lookup_insert_ne in Hn by done. right.
      split; [by intros [_ ?] | by exists pdev].
  - rewrite lookup_insert_ne in Hl by done. right.
    split; [by intros [? _] | by exists dev].
Qed.

(** C3.  After [ldm_device_add_child (parent, child)] the lookup of the
    child's own path in [parent] returns [child].  If the entry of that
    path held a different node before, that node is replaced without an
    error: in a store whose tables are keyed by the paths of the children
    (every store that the calls build is) no path of [parent] returns the
    previous node any more and it is not among the children of [parent];
    and when [parent] was its sole owner it is no longer reachable from
    [parent] at all. *)
Theorem add_child_last_write_wins (h : heap) (p c : loc) (pdev cdev : LdmDevice)
    (path : string) :
  h !! p = Some pdev →
  h !! c = Some cdev →
  os_sysfs_path cdev = Some path →
  ∃ h' : heap,
    ldm_device_add_child h (Some p) (Some c) = Some h' ∧
    ldm_device_get_child_by_path h' (Some p) (Some path) = Some (Some c) ∧
    ∀ old, tree_kids pdev !! path = Some old → old ≠ c →
           (keyed_by_path h →
            (∀ key, ldm_device_get_child_by_path h' (Some p) (Some key)
                    ≠ Some (Some old)) ∧
            (∃ children, ldm_device_get_children h' (Some p) = Some children ∧
                         old ∉ children)) ∧
           (old ≠ p → sole_owner h p path old → ¬ reach h' p old).
Proof.
  intros Hp Hc Hpath.
  exists (<[p := set_tree_kids (<[path := c]> (tree_kids pdev)) pdev]> h).
  split; [|split].
  - unfold ldm_device_add_child, ldm_device_get_path. simpl.
    rewrite Hc. simpl. rewrite Hp. simpl. rewrite Hpath. simpl.
    by destruct (negb _).
  - unfold ldm_device_get_child_by_path. rewrite lookup_insert_eq. simpl.
    unfold g_hash_table_lookup. by rewrite lookup_insert_eq.
  - intros old Hold Hoc. split.
    + intros Hkeyed.
      assert (Hentry : ∀ key, <[path := c]> (tree_kids pdev) !! key ≠ Some old).
      { intros key Hk. destruct (decide (key = path)) as [->|Hne].
        - rewrite lookup_insert_eq in Hk. congruence.
        - rewrite lookup_insert_ne in Hk by done.
          destruct (Hkeyed p key old) as (odev & Ho & Hopath); [by exists pdev|].
          destruct (Hkeyed p path old) as (odev' & Ho' & Hopath'); [by exists pdev|].
          congruence. }
      split.
      * intros key Hget. apply (Hentry key).
        unfold ldm_device_get_child_by_path in Hget.
        rewrite lookup_insert_eq in Hget. simpl in Hget.
        unfold g_hash_table_lookup in Hget. by injection Hget.
      * unfold ldm_device_get_children. rewrite lookup_insert_eq. simpl.
        eexists. split; [done|]. unfold g_hash_table_get_values.
        intros Hin. apply list_elem_of_fmap in Hin as ([key v] & -> & Hin).
        apply elem_of_map_to_list in Hin. by apply (Hentry key).
    + intros Hop Hsole Hr.
      apply reach_last_edge in Hr as [->|(l & key & Hk)]; [done|].
      apply (kid_after_replace h p pdev path c l key old Hp) in Hk
        as [(_ & _ & ?)|[Hne Hk]]; [done|].
      apply Hne. by apply Hsole.
Qed.

(** C4.  Removing a path that is not a key of the parent's table is a
    no-op: [ldm_device_remove_child_by_path] returns normally and the
    store is the same afterwards, so the parent's table and all its
    other fields (and every other node) are unchanged. *)
Theorem remove_absent_path_is_noop (h : heap) (p : loc) (pdev : LdmDevice)
    (path : string) :
  h !! p = Some pdev →
  tree_kids pdev !! path = None →
  ldm_device_remove_child_by_path h (Some p) (Some path) = Some h.
Proof.
  intros Hp Hnone. unfold ldm_device_remove_child_by_path, g_hash_table_remove.
  rewrite Hp. simpl. rewrite Hnone. simpl.
  by rewrite set_tree_kids_same, insert_id.
Qed.

(** C9.  [ldm_device_remove_child (parent, child)] leaves the store
    exactly as [ldm_device_remove_child_by_path (parent, p)] does, for
    [p] the path of [child]; this holds for every first argument. *)
Theorem remove_child_is_remove_by_path (h : heap) (self : option loc) (c : loc)
    (cdev : LdmDevice) (p : option string) :
  h !! c = Some cdev →
  os_sysfs_path cdev = p →
  ldm_device_remove_child h self (Some c) =
  ldm_device_remove_child_by_path h self p.
Proof.
  intros Hc <-. unfold ldm_device_remove_child, ldm_device_get_path.
  destruct self as [l|]; [|done]. by rewrite Hc.
Qed.

(** What [ldm_device_remove_child_by_path] does to a table that has the
    key: the entry is gone and the other entries stay. *)
Lemma remove_child_by_path_present h p pdev path c :
  h !! p = Some pdev →
  tree_kids pdev !! path = Some c →
  ldm_device_remove_child_by_path h (Some p) (Some path) =
  Some (<[p := set_tree_kids (delete path (tree_kids pdev)) pdev]> h).
Proof.
  intros Hp Hc. unfold ldm_device_remove_child_by_path, g_hash_table_remove.
  rewrite Hp. simpl. by rewrite Hc.
Qed.

(** ** Calls never touch a parent link *)

Lemma preserves_links_refl h : preserves_links h h.
Proof. intros q dev Hq. by exists dev. Qed.

Lemma preserves_links_trans h1 h2 h3 :
  preserves_links h1 h2 → preserves_links h2 h3 → preserves_links h1 h3.
Proof.
  intros H12 H23 q dev Hq.
  destruct (H12 q dev Hq) as (dev2 & Hq2 & (? & ? & ?)).
  destruct (H23 q dev2 Hq2) as (dev3 & Hq3 & (? & ? & ?)).
  exists dev3. split; [done|]. repeat split; congruence.
Qed.

Lemma preserves_links_set_kids h p pdev kids' :
  h !! p = Some pdev →
  preserves_links h (<[p := set_tree_kids kids' pdev]> h).
Proof.
  intros Hp q dev Hq. destruct (decide (q = p)) as [->|Hne].
  - rewrite lookup_insert_eq. eexists. split; [done|].
    assert (dev = pdev) as -> by congruence. done.
  - rewrite lookup_insert_ne by done. by exists dev.
Qed.

Lemma ldm_device_add_child_links h self child h' :
  ldm_device_add_child h self child = Some h' → preserves_links h h'.
Proof.
  unfold ldm_device_add_child. destruct self as [p|].
  - intros H. apply bind_Some in H as (id & _ & H).
    apply bind_Some in H as (dev & Hp & H).
    apply bind_Some in H as (key & _ & H).
    apply bind_Some in H as (value & _ & H).
    simpl in H. destruct (negb _); injection H as <-;
      by apply preserves_links_set_kids.
  - intros [= <-]. apply preserves_links_refl.
Qed.

Lemma ldm_device_remove_child_by_path_links h self path h' :
  ldm_device_remove_child_by_path h self path = Some h' → preserves_links h h'.
Proof.
  unfold ldm_device_remove_child_by_path. destruct self as [p|].
  - intros H. apply bind_Some in H as (dev & Hp & H).
    apply bind_Some in H as (key & _ & H).
    destruct (g_hash_table_remove (tree_kids dev) key) as [kids' found].
    destruct (negb found); injection H as <-;
      by apply preserves_links_set_kids.
  - intros [= <-]. apply preserves_links_refl.
Qed.

Lemma ldm_device_remove_child_links h self child h' :
  ldm_device_remove_child h self child = Some h' → preserves_links h h'.
Proof.
  unfold ldm_device_remove_child. destruct self as [p|].
  - intros H. apply bind_Some in H as (id & _ & H).
    by apply ldm_device_remove_child_by_path_links in H.
  - intros [= <-]. apply preserves_links_refl.
Qed.

(** ** Tables stay keyed by the paths of the children *)

Lemma keyed_by_path_empty : keyed_by_path ∅.
Proof. intros l key c (dev & Hl & _). by rewrite lookup_empty in Hl. Qed.

Lemma keyed_by_path_set_kids h p pdev kids' :
  keyed_by_path h →
  h !! p = Some pdev →
  (∀ key c, kids' !! key = Some c →
            ∃ cdev, h !! c = Some cdev ∧ os_sysfs_path cdev = Some key) →
  keyed_by_path (<[p := set_tree_kids kids' pdev]> h).
Proof.
  intros Hkeyed Hp Hnew l key c (dev & Hl & Hc).
  assert (∃ cdev, h !! c = Some cdev ∧ os_sysfs_path cdev = Some key)
    as (cdev & Hcdev & Hcpath).
  { destruct (decide (l = p)) as [->|Hne].
    - rewrite lookup_insert_eq in Hl. injection Hl as <-. by apply Hnew.
    - rewrite lookup_insert_ne in Hl by done. apply (Hkeyed l). by exists dev. }
  destruct (preserves_links_set_kids h p pdev kids' Hp c cdev Hcdev)
    as (cdev' & Hc' & (_ & Hsame & _)).
  exists cdev'. split; [done | congruence].
Qed.

Lemma ldm_device_add_child_keyed h self child h' :
  keyed_by_path h → ldm_device_add_child h self child = Some h' → keyed_by_path h'.
Proof.
  intros Hkeyed. unfold ldm_device_add_child. destruct self as [p|].
  - intros H. apply bind_Some in H as (id & Hid & H).
    apply bind_Some in H as (dev & Hp & H).
    apply bind_Some in H as (key & -> & H).
    apply bind_Some in H as (value & -> & H).
    simpl in Hid. apply bind_Some in Hid as (cdev & Hc & [= Hcpath]).
    simpl in H.
    assert (h' = <[p := set_tree_kids (<[key := value]> (tree_kids dev)) dev]> h)
      as -> by (destruct (negb _); by injection H).
    apply keyed_by_path_set_kids; [done | done |].
    intros k c Hk. destruct (decide (k = key)) as [->|Hne].
    + rewrite lookup_insert_eq in Hk. injection Hk as <-. by exists cdev.
    + rewrite lookup_insert_ne in Hk by done. apply (Hkeyed p). by exists dev.
  - by intros [= <-].
Qed.

Lemma ldm_device_remove_child_by_path_keyed h self path h' :
  keyed_by_path h →
  ldm_device_remove_child_by_path h self path = Some h' → keyed_by_path h'.
Proof.
  intros Hkeyed. unfold ldm_device_remove_child_by_path. destruct self as [p|].
  - intros H. apply bind_Some in H as (dev & Hp & H).
    apply bind_Some in H as (key & -> & H).
    unfold g_hash_table_remove in H.
    assert (∃ kids', h' = <[p := set_tree_kids kids' dev]> h ∧
                     kids' ⊆ tree_kids dev) as (kids' & -> & Hsub).
    { destruct (tree_kids dev !! key); simpl in H; injection H as <-;
        eexists; (split; [done|]); [apply delete_subseteq | done]. }
    apply keyed_by_path_set_kids; [done | done |].
    intros k c Hk. apply (Hkeyed p). exists dev. split; [done|].
    by apply (lookup_weaken kids').
  - by intros [= <-].
Qed.

Lemma ldm_device_remove_child_keyed h self child h' :
  keyed_by_path h → ldm_device_remove_child h self child = Some h' → keyed_by_path h'.
Proof.
  intros Hkeyed. unfold ldm_device_remove_child. destruct self as [p|].
  - intros H. apply bind_Some in H as (id & _ & H).
    by apply ldm_device_remove_child_by_path_keyed in H.
  - by intros [= <-].
Qed.

(** ** Construction *)

Lemma duplicate_hwdb_lookup properties t key :
  duplicate_hwdb properties t !! key =
  match last_value properties key with
  | Some v => Some v
  | None => t !! key
  end.
Proof.
  unfold duplicate_hwdb. revert t.
  induction properties as [|[name value] rest IH]; intros t; [done|].
  simpl. rewrite IH. destruct (last_value rest key); [done|].
  case_decide as Hk.
  - subst. by rewrite lookup_insert_eq.
  - by rewrite lookup_insert_ne.
Qed.

Lemma hwdb_phase_vendor properties self :
  properties ≠ [] →
  id_vendor (hwdb_phase properties self) =
  first_of (duplicate_hwdb properties (os_hwdb_info self) !! "ID_VENDOR_FROM_DATABASE")
           (duplicate_hwdb properties (os_hwdb_info self) !! "ID_VENDOR")
           (id_vendor self).
Proof.
  intros Hne. destruct properties as [|e rest]; [done|].
  unfold hwdb_phase, g_hash_table_lookup, first_of.
  set (t := duplicate_hwdb (e :: rest) (os_hwdb_info self)). simpl.
  repeat case_match; simplify_eq/=; done.
Qed.

Lemma hwdb_phase_name properties self :
  properties ≠ [] →
  id_name (hwdb_phase properties self) =
  first_of (duplicate_hwdb properties (os_hwdb_info self) !! "ID_MODEL_FROM_DATABASE")
           (duplicate_hwdb properties (os_hwdb_info self) !! "ID_MODEL")
           (id_name self).
Proof.
  intros Hne. destruct properties as [|e rest]; [done|].
  unfold hwdb_phase, g_hash_table_lookup, first_of.
  set (t := duplicate_hwdb (e :: rest) (os_hwdb_info self)). simpl.
  repeat case_match; simplify_eq/=; done.
Qed.

(** The fields that the hwdb phase, the basics and the name fallback
    leave alone. *)
Lemma hwdb_phase_frame properties self :
  g_type (hwdb_phase properties self) = g_type self ∧
  tree_parent (hwdb_phase properties self) = tree_parent self ∧
  tree_kids (hwdb_phase properties self) = tree_kids self ∧
  os_devtype (hwdb_phase properties self) = os_devtype self ∧
  os_attributes (hwdb_phase properties self) = os_attributes self ∧
  id_product_id (hwdb_phase properties self) = id_product_id self.
Proof.
  destruct properties as [|e rest]; [done|].
  unfold hwdb_phase, g_hash_table_lookup.
  set (t := duplicate_hwdb (e :: rest) (os_hwdb_info self)). simpl.
  repeat case_match; done.
Qed.

Lemma set_basics_frame device self :
  g_type (set_basics device self) = g_type self ∧
  tree_parent (set_basics device self) = tree_parent self ∧
  tree_kids (set_basics device self) = tree_kids self ∧
  os_hwdb_info (set_basics device self) = os_hwdb_info self ∧
  os_devtype (set_basics device self) = os_devtype self ∧
  os_attributes (set_basics device self) = os_attributes self ∧
  id_name (set_basics device self) = id_name self ∧
  id_vendor (set_basics device self) = id_vendor self ∧
  id_product_id (set_basics device self) = id_product_id self.
Proof. unfold set_basics. by case_match. Qed.

Lemma name_fallback_frame self :
  g_type (name_fallback self) = g_type self ∧
  tree_parent (name_fallback self) = tree_parent self ∧
  tree_kids (name_fallback self) = tree_kids self ∧
  os_devtype (name_fallback self) = os_devtype self ∧
  os_attributes (name_fallback self) = os_attributes self ∧
  id_vendor (name_fallback self) = id_vendor self.
Proof. unfold name_fallback. by case_match. Qed.

Lemma name_fallback_name self :
  id_name (name_fallback self) =
  match id_name self with
  | Some n => Some n
  | None => Some ("Device " +:+ printf_x (id_product_id self))
  end.
Proof. unfold name_fallback. by case_match. Qed.

Lemma special_type_of_cases s :
  (s = "usb" ∧ special_type_of s = LDM_TYPE_USB_DEVICE) ∨
  (s = "pci" ∧ special_type_of s = LDM_TYPE_PCI_DEVICE) ∨
  (s = "dmi" ∧ special_type_of s = LDM_TYPE_DMI_DEVICE) ∨
  (s = "hid" ∧ special_type_of s = LDM_TYPE_HID_DEVICE) ∨
  (s = "bluetooth" ∧ special_type_of s = LDM_TYPE_BLUETOOTH_DEVICE) ∨
  (s = "ieee80211" ∧ special_type_of s = LDM_TYPE_WIFI_DEVICE) ∨
  (s ≠ "usb" ∧ s ≠ "pci" ∧ s ≠ "dmi" ∧ s ≠ "hid" ∧ s ≠ "bluetooth" ∧
   s ≠ "ieee80211" ∧ special_type_of s = LDM_TYPE_DEVICE).
Proof.
  unfold special_type_of, g_str_equal.
  destruct (String.eqb_spec s "usb") as [->|?]; [by left|]. right.
  destruct (String.eqb_spec s "pci") as [->|?]; [by left|]. right.
  destruct (String.eqb_spec s "dmi") as [->|?]; [by left|]. right.
  destruct (String.eqb_spec s "hid") as [->|?]; [by left|]. right.
  destruct (String.eqb_spec s "bluetooth") as [->|?]; [by left|]. right.
  destruct (String.eqb_spec s "ieee80211") as [->|?]; [by left|]. right.
  done.
Qed.

Section ConstructionFacts.

Variable subclass_init : GType → LdmDevice → LdmDevice.
Variable ldm_pci_device_init_private : LdmDevice → udev_device → LdmDevice.
Variable ldm_usb_device_init_private : LdmDevice → udev_device → LdmDevice.
Variable ldm_dmi_device_init_private : LdmDevice → udev_device → LdmDevice.
Variable ldm_bluetooth_device_init_private : LdmDevice → udev_device → LdmDevice.

Local Abbreviation new_from_udev :=
  (ldm_device_new_from_udev subclass_init ldm_pci_device_init_private
     ldm_usb_device_init_private ldm_dmi_device_init_private
     ldm_bluetooth_device_init_private).
Local Abbreviation init_private :=
  (init_private_phase ldm_pci_device_init_private ldm_usb_device_init_private
     ldm_dmi_device_init_private ldm_bluetooth_device_init_private).
Local Abbreviation keep_header :=
  (initialisers_keep_header subclass_init ldm_pci_device_init_private
     ldm_usb_device_init_private ldm_dmi_device_init_private
     ldm_bluetooth_device_init_private).
Local Abbreviation run :=
  (run_calls subclass_init ldm_pci_device_init_private
     ldm_usb_device_init_private ldm_dmi_device_init_private
     ldm_bluetooth_device_init_private).

Lemma init_private_header ty device self :
  keep_header →
  g_type (init_private ty device self) = g_type self ∧
  tree_parent (init_private ty device self) = tree_parent self ∧
  tree_kids (init_private ty device self) = tree_kids self.
Proof.
  intros (_ & Hpci & Husb & Hdmi & Hbt). unfold init_private_phase.
  repeat case_decide;
    [apply Hpci | apply Husb | apply Hdmi | apply Hbt | done].
Qed.

Lemma init_private_generic device self :
  init_private LDM_TYPE_DEVICE device self = self.
Proof. done. Qed.

Lemma init_private_hid device self :
  init_private LDM_TYPE_HID_DEVICE device self = self.
Proof. done. Qed.

Lemma init_private_wifi device self :
  init_private LDM_TYPE_WIFI_DEVICE device self = self.
Proof. done. Qed.

Lemma g_object_new_header ty parent :
  keep_header →
  g_type (g_object_new subclass_init ty parent) = ty ∧
  tree_parent (g_object_new subclass_init ty parent) = parent ∧
  tree_kids (g_object_new subclass_init ty parent) = ∅.
Proof.
  intros (Hsub & _). unfold g_object_new.
  destruct ty; simpl; try done;
    by rewrite (proj1 (Hsub _ _)), (proj2 (Hsub _ _)).
Qed.

(** The header of a freshly constructed instance. *)
Lemma new_instance_header ty parent device properties :
  keep_header →
  let self := name_fallback
                (init_private ty device
                   (hwdb_phase properties
                      (set_basics device (g_object_new subclass_init ty parent)))) in
  g_type self = ty ∧ tree_parent self = parent ∧ tree_kids self = ∅.
Proof.
  intros Hinit. simpl.
  destruct (name_fallback_frame
              (init_private ty device
                 (hwdb_phase properties
                    (set_basics device (g_object_new subclass_init ty parent)))))
    as (-> & -> & -> & _).
  destruct (init_private_header ty device
              (hwdb_phase properties
                 (set_basics device (g_object_new subclass_init ty parent))) Hinit)
    as (-> & -> & ->).
  destruct (hwdb_phase_frame properties
              (set_basics device (g_object_new subclass_init ty parent)))
    as (-> & -> & -> & _).
  destruct (set_basics_frame device (g_object_new subclass_init ty parent))
    as (-> & -> & -> & _).
  by apply g_object_new_header.
Qed.

(** The constructor returns whenever the subsystem is a string; the new
    instance is the composition of the phases, at a fresh address. *)
Lemma new_from_udev_unfold h parent device properties s :
  udev_device_get_subsystem device = Some s →
  new_from_udev h parent device properties =
  Some (fresh (dom h),
        <[fresh (dom h) :=
            name_fallback
              (init_private (special_type_of s) device
                 (hwdb_phase properties
                    (set_basics device
                       (g_object_new subclass_init (special_type_of s) parent))))]> h).
Proof. intros Hs. unfold ldm_device_new_from_udev. by rewrite Hs. Qed.

Lemma new_from_udev_inv h parent device properties l h' :
  new_from_udev h parent device properties = Some (l, h') →
  ∃ s self,
    udev_device_get_subsystem device = Some s ∧
    l = fresh (dom h) ∧ h !! l = None ∧ h' = <[l := self]> h ∧
    self = name_fallback
             (init_private (special_type_of s) device
                (hwdb_phase properties
                   (set_basics device
                      (g_object_new subclass_init (special_type_of s) parent)))).
Proof.
  intros H. destruct (udev_device_get_subsystem device) as [s|] eqn:Hs.
  - rewrite (new_from_udev_unfold _ _ _ _ _ Hs) in H. injection H as <- <-.
    exists s. eexists. split; [done|]. split; [done|].
    split; [apply not_elem_of_dom, is_fresh|]. split; reflexivity.
  - unfold ldm_device_new_from_udev in H. by rewrite Hs in H.
Qed.

Lemma new_from_udev_links h parent device properties l h' :
  new_from_udev h parent device properties = Some (l, h') →
  preserves_links h h'.
Proof.
  intros H. apply new_from_udev_inv in H as (s & self & _ & -> & Hfresh & -> & _).
  intros q dev Hq. exists dev. split; [|done].
  rewrite lookup_insert_ne; [done|]. intros <-. congruence.
Qed.

Lemma run_call_links c h h' :
  run_call subclass_init ldm_pci_device_init_private ldm_usb_device_init_private
    ldm_dmi_device_init_private ldm_bluetooth_device_init_private c h = Some h' →
  preserves_links h h'.
Proof.
  destruct c as [parent device properties|self child|self child|self path]; simpl.
  - intros H. apply fmap_Some in H as ([l h1] & H & ->).
    by apply new_from_udev_links in H.
  - apply ldm_device_add_child_links.
  - apply ldm_device_remove_child_links.
  - apply ldm_device_remove_child_by_path_links.
Qed.

Lemma run_calls_links cs h h' :
  run cs h = Some h' → preserves_links h h'.
Proof.
  revert h. induction cs as [|c cs IH]; intros h; simpl.
  - intros [= <-]. apply preserves_links_refl.
  - intros H. apply bind_Some in H as (h1 & Hc & Hcs).
    apply (preserves_links_trans h h1 h'); [by apply (run_call_links c) | by apply IH].
Qed.

Lemma new_from_udev_keyed h parent device properties l h' :
  keep_header →
  keyed_by_path h →
  new_from_udev h parent device properties = Some (l, h') →
  keyed_by_path h'.
Proof.
  intros Hinit Hkeyed H.
  apply new_from_udev_inv in H as (s & self & _ & -> & Hfresh & -> & Hself).
  assert (tree_kids self = ∅) as Hkids.
  { rewrite Hself.
    apply (new_instance_header (special_type_of s) parent device properties Hinit). }
  intros l key c (dev & Hl & Hc).
  destruct (decide (l = fresh (dom h))) as [->|Hne].
  - rewrite lookup_insert_eq in Hl. injection Hl as <-.
    by rewrite Hkids, lookup_empty in Hc.
  - rewrite lookup_insert_ne in Hl by done.
    destruct (Hkeyed l key c) as (cdev & Hcdev & Hcpath); [by exists dev|].
    exists cdev. split; [|done].
    rewrite lookup_insert_ne; [done|]. intros <-. congruence.
Qed.

(** Every store that a sequence of calls builds from the empty store, or
    from a keyed one, is keyed by the paths of the children. *)
Lemma run_calls_keyed cs h h' :
  keep_header → keyed_by_path h → run cs h = Some h' → keyed_by_path h'.
Proof.
  intros Hinit. revert h. induction cs as [|c cs IH]; intros h Hkeyed; simpl.
  - by intros [= <-].
  - intros H. apply bind_Some in H as (h1 & Hc & Hcs).
    apply (IH h1); [|done]. clear IH Hcs.
    destruct c as [parent device properties|self child|self child|self path];
      simpl in Hc.
    + apply fmap_Some in Hc as ([l h2] & Hc & ->).
      by apply (new_from_udev_keyed h parent device properties l h2).
    + by apply (ldm_device_add_child_keyed h self child).
    + by apply (ldm_device_remove_child_keyed h self child).
    + by apply (ldm_device_remove_child_by_path_keyed h self path).
Qed.

(** C7.  A node constructed with parent [P] (possibly [NULL]) has
    [ldm_device_get_parent] return [P], right after construction and
    after any further sequence of constructions, [add_child],
    [remove_child] and [remove_child_by_path] calls on any nodes. *)
Theorem parent_link_is_permanent (h : heap) (P : option loc) (device : udev_device)
    (properties : udev_list) (l : loc) (h1 : heap) (cs : list call) (h2 : heap) :
  keep_header →
  new_from_udev h P device properties = Some (l, h1) →
  run cs h1 = Some h2 →
  ldm_device_get_parent h1 (Some l) = Some P ∧
  ldm_device_get_parent h2 (Some l) = Some P.
Proof.
  intros Hinit Hnew Hrun.
  apply new_from_udev_inv in Hnew as (s & self & _ & -> & _ & -> & Hself).
  assert (tree_parent self = P) as HP.
  { rewrite Hself.
    apply (new_instance_header (special_type_of s) P device properties Hinit). }
  assert (<[fresh (dom h) := self]> h !! fresh (dom h) = Some self) as Hl
    by apply lookup_insert_eq.
  split.
  - simpl. by rewrite Hl; simpl; rewrite HP.
  - destruct (run_calls_links _ _ _ Hrun _ _ Hl) as (dev' & Hl' & (Hpar & _)).
    simpl. rewrite Hl'. simpl. by rewrite Hpar, HP.
Qed.

(** C6 (as amended).  When the record has a subsystem, construction
    returns a node whose variant follows the table usb, pci, dmi, hid,
    bluetooth, ieee80211; every other subsystem string gives the plain
    [LdmDevice], for which no initialiser of a subclass runs (the result
    is the one obtained with initialisers that do nothing) and whose
    [device_type] is [LDM_DEVICE_TYPE_ANY]. *)
Theorem subsystem_selects_variant (h : heap) (parent : option loc)
    (device : udev_device) (properties : udev_list) (s : string) :
  keep_header →
  udev_device_get_subsystem device = Some s →
  ∃ l h' self,
    new_from_udev h parent device properties = Some (l, h') ∧
    h' !! l = Some self ∧
    (s = "usb" → g_type self = LDM_TYPE_USB_DEVICE) ∧
    (s = "pci" → g_type self = LDM_TYPE_PCI_DEVICE) ∧
    (s = "dmi" → g_type self = LDM_TYPE_DMI_DEVICE) ∧
    (s = "hid" → g_type self = LDM_TYPE_HID_DEVICE) ∧
    (s = "bluetooth" → g_type self = LDM_TYPE_BLUETOOTH_DEVICE) ∧
    (s = "ieee80211" → g_type self = LDM_TYPE_WIFI_DEVICE) ∧
    (s ≠ "usb" → s ≠ "pci" → s ≠ "dmi" → s ≠ "hid" → s ≠ "bluetooth" →
     s ≠ "ieee80211" →
     g_type self = LDM_TYPE_DEVICE ∧
     os_devtype self = LDM_DEVICE_TYPE_ANY ∧
     new_from_udev h parent device properties =
     ldm_device_new_from_udev no_subclass_init no_init_private no_init_private
       no_init_private no_init_private h parent device properties).
Proof.
  intros Hinit Hs.
  rewrite (new_from_udev_unfold _ _ _ _ _ Hs).
  eexists _, _, _. split; [done|]. split; [apply lookup_insert_eq|].
  assert (Hty : ∀ ty, special_type_of s = ty →
            g_type (name_fallback
                      (init_private (special_type_of s) device
                         (hwdb_phase properties
                            (set_basics device
                               (g_object_new subclass_init (special_type_of s) parent)))))
            = ty).
  { intros ty <-.
    apply (new_instance_header (special_type_of s) parent device properties Hinit). }
  repeat split; try (intros ->; by apply Hty).
  - intros. apply Hty.
    destruct (special_type_of_cases s) as [[? ?]|[[? ?]|[[? ?]|[[? ?]|[[? ?]|[[? ?]|?]]]]]];
      try done. by destruct_and!.
  - intros. 
    assert (special_type_of s = LDM_TYPE_DEVICE) as ->.
    { destruct (special_type_of_cases s)
        as [[? ?]|[[? ?]|[[? ?]|[[? ?]|[[? ?]|[[? ?]|?]]]]]]; try done.
      by destruct_and!. }
    rewrite init_private_generic.
    rewrite (proj1 (proj2 (proj2 (proj2 (name_fallback_frame _))))).
    rewrite (proj1 (proj2 (proj2 (proj2 (hwdb_phase_frame _ _))))).
    by rewrite (proj1 (proj2 (proj2 (proj2 (proj2 (set_basics_frame _ _)))))).
  - intros. unfold ldm_device_new_from_udev at 1. rewrite Hs. simpl.
    assert (special_type_of s = LDM_TYPE_DEVICE) as ->.
    { destruct (special_type_of_cases s)
        as [[? ?]|[[? ?]|[[? ?]|[[? ?]|[[? ?]|[[? ?]|?]]]]]]; try done.
      by destruct_and!. }
    done.
Qed.

(** C5.  Construction takes [identity.vendor] from the hwdb key
    [ID_VENDOR_FROM_DATABASE], else from [ID_VENDOR], else leaves it as it
    was; it takes [identity.name] from [ID_MODEL_FROM_DATABASE], else from
    [ID_MODEL]; the initialiser of the variant runs on the result ([pre]
    below, [post] after the initialiser), and a name that is still unset
    after it becomes "Device " followed by the
    product id in lowercase hexadecimal without padding (product id 0x10
    gives "Device 10").  For the plain [LdmDevice] no initialiser
    intervenes: the vendor and the name of the node are the ones derived
    from the list, the vendor unset and the name "Device 0" when the keys
    are missing. *)
Theorem identity_from_hwdb_then_fallback (h : heap) (parent : option loc)
    (device : udev_device) (properties : udev_list) (s : string) :
  udev_device_get_subsystem device = Some s →
  ∃ l h' self,
    new_from_udev h parent device properties = Some (l, h') ∧
    h' !! l = Some self ∧
    let new := g_object_new subclass_init (special_type_of s) parent in
    let pre := hwdb_phase properties (set_basics device new) in
    let post := init_private (special_type_of s) device pre in
    let hwdb key :=
      match properties with
      | [] => None
      | _ :: _ => match last_value properties key with
                  | Some v => Some v
                  | None => os_hwdb_info new !! key
                  end
      end in
    id_vendor pre =
      first_of (hwdb "ID_VENDOR_FROM_DATABASE") (hwdb "ID_VENDOR") (id_vendor new) ∧
    id_name pre =
      first_of (hwdb "ID_MODEL_FROM_DATABASE") (hwdb "ID_MODEL") (id_name new) ∧
    self = name_fallback post ∧
    id_vendor self = id_vendor post ∧
    id_name self =
      match id_name post with
      | Some n => Some n
      | None => Some ("Device " +:+ printf_x (id_product_id post))
      end ∧
    (id_name post = None → id_product_id post = 16 →
     id_name self = Some "Device 10") ∧
    (special_type_of s = LDM_TYPE_DEVICE →
     id_vendor self =
       first_of (last_value properties "ID_VENDOR_FROM_DATABASE")
                (last_value properties "ID_VENDOR") None ∧
     id_name self =
       first_of (last_value properties "ID_MODEL_FROM_DATABASE")
                (last_value properties "ID_MODEL") (Some "Device 0")).
Proof.
  intros Hs. rewrite (new_from_udev_unfold _ _ _ _ _ Hs).
  set (new := g_object_new subclass_init (special_type_of s) parent).
  set (pre := hwdb_phase properties (set_basics device new)).
  eexists _, _, _. split; [done|]. split; [apply lookup_insert_eq|].
  simpl. fold new. fold pre.
  pose proof (set_basics_frame device new)
    as (_ & _ & _ & Hbt & _ & _ & Hbn & Hbv & Hbp).
  assert (Hvendor : id_vendor pre =
            first_of
              (match properties with
               | [] => None
               | _ :: _ => match last_value properties "ID_VENDOR_FROM_DATABASE" with
                           | Some v => Some v
                           | None => os_hwdb_info new !! "ID_VENDOR_FROM_DATABASE"
                           end
               end)
              (match properties with
               | [] => None
               | _ :: _ => match last_value properties "ID_VENDOR" with
                           | Some v => Some v
                           | None => os_hwdb_info new !! "ID_VENDOR"
                           end
               end) (id_vendor new)).
  { unfold pre. destruct properties as [|e rest] eqn:Hprops.
    - simpl. by rewrite Hbv.
    - rewrite hwdb_phase_vendor by done.
      by rewrite !duplicate_hwdb_lookup, Hbt, Hbv. }
  assert (Hname : id_name pre =
            first_of
              (match properties with
               | [] => None
               | _ :: _ => match last_value properties "ID_MODEL_FROM_DATABASE" with
                           | Some v => Some v
                           | None => os_hwdb_info new !! "ID_MODEL_FROM_DATABASE"
                           end
               end)
              (match properties with
               | [] => None
               | _ :: _ => match last_value properties "ID_MODEL" with
                           | Some v => Some v
                           | None => os_hwdb_info new !! "ID_MODEL"
                           end
               end) (id_name new)).
  { unfold pre. destruct properties as [|e rest] eqn:Hprops.
    - simpl. by rewrite Hbn.
    - rewrite hwdb_phase_name by done.
      by rewrite !duplicate_hwdb_lookup, Hbt, Hbn. }
  split; [exact Hvendor|]. split; [exact Hname|]. split; [done|].
  split; [apply name_fallback_frame|].
  split; [apply name_fallback_name|].
  split.
  { intros Hn Hp. rewrite name_fallback_name, Hn, Hp. reflexivity. }
  intros Hgen. subst new. revert Hvendor Hname Hbp. rewrite !Hgen.
  rewrite !init_private_generic. intros Hvendor Hname Hbp.
  rewrite (proj2 (proj2 (proj2 (proj2 (proj2 (name_fallback_frame _)))))).
  rewrite name_fallback_name, Hvendor, Hname.
  assert (id_product_id pre = 0) as Hp0.
  { unfold pre. rewrite (proj2 (proj2 (proj2 (proj2 (proj2 (hwdb_phase_frame _ _)))))).
    by rewrite Hgen, Hbp. }
  rewrite Hp0.
  destruct properties as [|e rest]; [done|].
  unfold g_object_new, first_of. simpl. rewrite !lookup_empty.
  split; repeat case_match; simplify_eq; done.
Qed.

End ConstructionFacts.

(** The example of the spec: the root is [PCI|GPU], its child is [HID]. *)
Example has_type_root_hid :
  ldm_device_has_type 2 example_store (Some 1%positive) LDM_DEVICE_TYPE_HID = Some true.
Proof. reflexivity. Qed.

Example has_type_child_gpu :
  ldm_device_has_type 2 example_store (Some 2%positive) LDM_DEVICE_TYPE_GPU = Some false.
Proof. reflexivity. Qed.

Example has_attribute_reads_child_type :
  ldm_device_has_attribute 2 example_usb_store (Some 1%positive)
    LDM_DEVICE_ATTRIBUTE_INTERFACE = Some false ∧
  ldm_device_has_attribute 2 example_usb_store (Some 1%positive)
    LDM_DEVICE_ATTRIBUTE_BOOT_VGA = Some true.
Proof. by split. Qed.

Example printf_x_examples :
  printf_x 16 = "10" ∧ printf_x 0 = "0" ∧ printf_x 48879 = "beef" ∧
  printf_x (-1) = "ffffffff".
Proof. by repeat split. Qed.

Lemma example_store_sole_owner :
  sole_owner example_store 1%positive example_child_path 2%positive.
Proof.
  intros l key (dev & Hl & Hk). unfold example_store in Hl.
  apply lookup_insert_Some in Hl as [[<- <-]|[_ Hl]].
  { simpl in Hk. apply lookup_singleton_Some in Hk as [<- _]. done. }
  apply lookup_insert_Some in Hl as [[<- <-]|[_ Hl]]; [done|].
  apply lookup_singleton_Some in Hl as [<- <-]. done.
Qed.

Lemma example_store_keyed : keyed_by_path example_store.
Proof.
  intros l key c (dev & Hl & Hk). unfold example_store in Hl.
  apply lookup_insert_Some in Hl as [[<- <-]|[_ Hl]].
  { simpl in Hk. apply lookup_singleton_Some in Hk as [<- <-].
    by exists example_child. }
  apply lookup_insert_Some in Hl as [[<- <-]|[_ Hl]]; [done|].
  apply lookup_singleton_Some in Hl as [<- <-]. done.
Qed.

Lemma example_initialisers_keep_header :
  initialisers_keep_header no_subclass_init example_pci_init_private
    no_init_private no_init_private no_init_private.
Proof. by repeat split. Qed.

(** ** Instances of the theorems *)

Lemma has_type_iff_subtree_match_witness :
  subtree_within 2 example_store 1%positive = true ∧
  ∃ b : bool,
    (∀ d', (2 ≤ d')%nat →
           ldm_device_has_type d' example_store (Some 1%positive) LDM_DEVICE_TYPE_HID
           = Some b) ∧
    (b = true ↔
     ∃ n ndev, reach example_store 1%positive n ∧ example_store !! n = Some ndev ∧
               Z.land (os_devtype ndev) LDM_DEVICE_TYPE_HID = LDM_DEVICE_TYPE_HID).
Proof.
  split; [reflexivity|].
  apply (has_type_iff_subtree_match example_store 2 1%positive LDM_DEVICE_TYPE_HID).
  reflexivity.
Defined.

Lemma has_attribute_iff_self_or_child_type_witness :
  example_store !! 1%positive = Some example_root ∧
  subtree_within 2 example_store 1%positive = true ∧
  ∃ b : bool,
    (∀ d', (2 ≤ d')%nat →
           ldm_device_has_attribute d' example_store (Some 1%positive)
             LDM_DEVICE_TYPE_HID = Some b) ∧
    (b = true ↔
     Z.land (os_attributes example_root) LDM_DEVICE_TYPE_HID = LDM_DEVICE_TYPE_HID ∨
     ∃ key c, tree_kids example_root !! key = Some c ∧
              ldm_device_has_type 2 example_store (Some c) LDM_DEVICE_TYPE_HID
              = Some true) ∧
    (b = true ↔
     Z.land (os_attributes example_root) LDM_DEVICE_TYPE_HID = LDM_DEVICE_TYPE_HID ∨
     ∃ key c n ndev, tree_kids example_root !! key = Some c ∧
                     reach example_store c n ∧ example_store !! n = Some ndev ∧
                     Z.land (os_devtype ndev) LDM_DEVICE_TYPE_HID = LDM_DEVICE_TYPE_HID).
Proof.
  split; [reflexivity|]. split; [reflexivity|].
  apply (has_attribute_iff_self_or_child_type example_store 2 1%positive
           example_root LDM_DEVICE_TYPE_HID); reflexivity.
Defined.

Lemma zero_mask_always_matches_witness :
  example_store !! 2%positive = Some example_child ∧
  ldm_device_has_type 1 example_store (Some 2%positive) LDM_DEVICE_TYPE_ANY
  = Some true ∧
  ldm_device_has_attribute 1 example_store (Some 2%positive) LDM_DEVICE_ATTRIBUTE_NONE
  = Some true.
Proof.
  split; [reflexivity|].
  apply (zero_mask_always_matches example_store 2%positive example_child 0).
  reflexivity.
Defined.

Lemma add_child_last_write_wins_witness :
  (example_store !! 1%positive = Some example_root ∧
   example_store !! 3%positive = Some example_replacement ∧
   os_sysfs_path example_replacement = Some example_child_path ∧
   tree_kids example_root !! example_child_path = Some 2%positive) ∧
  ∃ h' : gmap positive LdmDevice,
    ldm_device_add_child example_store (Some 1%positive) (Some 3%positive) = Some h' ∧
    ldm_device_get_child_by_path h' (Some 1%positive) (Some example_child_path)
    = Some (Some 3%positive) ∧
    (∀ key, ldm_device_get_child_by_path h' (Some 1%positive) (Some key)
            ≠ Some (Some 2%positive)) ∧
    (∃ children, ldm_device_get_children h' (Some 1%positive) = Some children ∧
                 2%positive ∉ children) ∧
    ¬ reach h' 1%positive 2%positive.
Proof.
  split; [by repeat split|].
  destruct (add_child_last_write_wins example_store 1%positive 3%positive
              example_root example_replacement example_child_path
              eq_refl eq_refl eq_refl) as (h' & Hadd & Hget & Hold).
  exists h'. split; [exact Hadd|]. split; [exact Hget|].
  destruct (Hold 2%positive) as [Hdirect Hreach]; [reflexivity | discriminate |].
  destruct (Hdirect example_store_keyed) as [Hnokey Hnochild].
  split; [exact Hnokey|]. split; [exact Hnochild|].
  apply Hreach; [discriminate | exact example_store_sole_owner].
Defined.

Lemma remove_absent_path_is_noop_witness :
  example_store !! 1%positive = Some example_root ∧
  tree_kids example_root !! "nonexistent" = None ∧
  ldm_device_remove_child_by_path example_store (Some 1%positive) (Some "nonexistent")
  = Some example_store.
Proof.
  split; [reflexivity|]. split; [reflexivity|].
  apply (remove_absent_path_is_noop example_store 1%positive example_root "nonexistent");
    reflexivity.
Defined.

Lemma remove_child_is_remove_by_path_witness :
  example_store !! 2%positive = Some example_child ∧
  os_sysfs_path example_child = Some example_child_path ∧
  ldm_device_remove_child example_store (Some 1%positive) (Some 2%positive) =
  ldm_device_remove_child_by_path example_store (Some 1%positive)
    (Some example_child_path).
Proof.
  split; [reflexivity|]. split; [reflexivity|].
  apply (remove_child_is_remove_by_path example_store (Some 1%positive) 2%positive
           example_child (Some example_child_path)); reflexivity.
Defined.

Lemma example_new_eq : example_new (Some "pci") = Some (4%positive, example_new_store).
Proof. reflexivity. Qed.

Lemma example_run_eq :
  run_calls no_subclass_init example_pci_init_private
    no_init_private no_init_private no_init_private
    example_calls example_new_store = Some example_final_store.
Proof. vm_compute. reflexivity. Qed.

Lemma parent_link_is_permanent_witness :
  initialisers_keep_header no_subclass_init example_pci_init_private
    no_init_private no_init_private no_init_private ∧
  example_new (Some "pci") = Some (4%positive, example_new_store) ∧
  run_calls no_subclass_init example_pci_init_private
    no_init_private no_init_private no_init_private
    example_calls example_new_store = Some example_final_store ∧
  ldm_device_get_parent example_new_store (Some 4%positive) = Some (Some 1%positive) ∧
  ldm_device_get_parent example_final_store (Some 4%positive) = Some (Some 1%positive).
Proof.
  split; [exact example_initialisers_keep_header|].
  split; [exact example_new_eq|]. split; [exact example_run_eq|].
  apply (parent_link_is_permanent no_subclass_init example_pci_init_private
           no_init_private no_init_private no_init_private
           example_store (Some 1%positive) (example_udev (Some "pci"))
           example_properties 4%positive example_new_store
           example_calls example_final_store).
  - exact example_initialisers_keep_header.
  - exact example_new_eq.
  - exact example_run_eq.
Defined.

Lemma subsystem_selects_variant_witness :
  initialisers_keep_header no_subclass_init example_pci_init_private
    no_init_private no_init_private no_init_private ∧
  udev_device_get_subsystem (example_udev (Some "pci")) = Some "pci" ∧
  ∃ l h' self,
    example_new (Some "pci") = Some (l, h') ∧ h' !! l = Some self ∧
    g_type self = LDM_TYPE_PCI_DEVICE.
Proof.
  split; [exact example_initialisers_keep_header|]. split; [reflexivity|].
  destruct (subsystem_selects_variant no_subclass_init example_pci_init_private
              no_init_private no_init_private no_init_private
              example_store (Some 1%positive) (example_udev (Some "pci"))
              example_properties "pci" example_initialisers_keep_header eq_refl)
    as (l & h' & self & Hnew & Hl & _ & Hpci & _).
  exists l, h', self. split; [exact Hnew|]. split; [exact Hl|].
  apply Hpci. reflexivity.
Defined.

Lemma identity_from_hwdb_then_fallback_witness :
  udev_device_get_subsystem (example_udev (Some "nonsense")) = Some "nonsense" ∧
  ∃ l h' self,
    example_new (Some "nonsense") = Some (l, h') ∧ h' !! l = Some self ∧
    id_vendor self = Some "Acme Corporation" ∧ id_name self = Some "Foo".
Proof.
  split; [reflexivity|].
  destruct (identity_from_hwdb_then_fallback no_subclass_init example_pci_init_private
              no_init_private no_init_private no_init_private
              example_store (Some 1%positive) (example_udev (Some "nonsense"))
              example_properties "nonsense" eq_refl)
    as (l & h' & self & Hnew & Hl & _ & _ & _ & _ & _ & _ & Hgeneric).
  exists l, h', self. split; [exact Hnew|]. split; [exact Hl|].
  exact (Hgeneric eq_refl).
Defined.

(** The name fallback after a variant initialiser: the stand-in PCI
    initialiser sets the product id 0x10, the list has no model. *)
Example name_fallback_device_10 :
  ∃ l h' self,
    ldm_device_new_from_udev no_subclass_init example_pci_init_private
      no_init_private no_init_private no_init_private
      ∅ None (example_udev (Some "pci")) [("ID_VENDOR", "Acme")] = Some (l, h') ∧
    h' !! l = Some self ∧
    id_name self = Some "Device 10" ∧ id_vendor self = Some "Acme".
Proof. eexists _, _, _. split; [reflexivity|]. split; [apply lookup_insert_eq|]. done. Qed.

(** C6, the claim as stated: "any other subsystem value, including an
    absent subsystem, yields the Generic variant".  With an absent
    subsystem the constructor hands [NULL] to [g_str_equal]; no node is
    constructed. *)
Lemma absent_subsystem_constructs_no_node :
  ¬ ∃ l h' self,
      ldm_device_new_from_udev no_subclass_init no_init_private no_init_private
        no_init_private no_init_private
        ∅ None (example_udev None) [] = Some (l, h') ∧
      h' !! l = Some self ∧ g_type self = LDM_TYPE_DEVICE.
Proof. intros (l & h' & self & Hnew & _). discriminate Hnew. Qed.


(** * Further properties of [device.c] and of its callers *)

(** ** The tree operations: what changes and what does not *)

Lemma add_child_store h p c pdev cdev path :
  h !! p = Some pdev →
  h !! c = Some cdev →
  os_sysfs_path cdev = Some path →
  ldm_device_add_child h (Some p) (Some c) =
  Some (<[p := set_tree_kids (<[path := c]> (tree_kids pdev)) pdev]> h).
Proof.
  intros Hp Hc Hpath. unfold ldm_device_add_child, ldm_device_get_path. simpl.
  rewrite Hc. simpl. rewrite Hp. simpl. rewrite Hpath. simpl.
  by destruct (negb _).
Qed.

Lemma add_child_inv h p child h' :
  ldm_device_add_child h (Some p) child = Some h' →
  ∃ pdev c cdev path,
    h !! p = Some pdev ∧ child = Some c ∧ h !! c = Some cdev ∧
    os_sysfs_path cdev = Some path ∧
    h' = <[p := set_tree_kids (<[path := c]> (tree_kids pdev)) pdev]> h.
Proof.
  unfold ldm_device_add_child. intros H.
  apply bind_Some in H as (id & Hid & H).
  apply bind_Some in H as (pdev & Hp & H).
  apply bind_Some in H as (path & -> & H).
  apply bind_Some in H as (c & -> & H).
  simpl in Hid. apply bind_Some in Hid as (cdev & Hc & [= Hpath]).
  exists pdev, c, cdev, path. repeat split; try done.
  simpl in H. destruct (negb _); by injection H.
Qed.

Lemma remove_child_by_path_store h p pdev path :
  h !! p = Some pdev →
  ldm_device_remove_child_by_path h (Some p) (Some path) =
  Some (<[p := set_tree_kids (delete path (tree_kids pdev)) pdev]> h).
Proof.
  intros Hp. unfold ldm_device_remove_child_by_path, g_hash_table_remove.
  rewrite Hp. simpl.
  destruct (tree_kids pdev !! path) eqn:Hk; simpl; [done|]. by rewrite delete_id.
Qed.

Lemma get_child_by_path_lookup h p pdev key :
  h !! p = Some pdev →
  ldm_device_get_child_by_path h (Some p) (Some key) = Some (tree_kids pdev !! key).
Proof. intros Hp. unfold ldm_device_get_child_by_path. by rewrite Hp. Qed.

(** X1.  [ldm_device_remove_child_by_path] on a valid parent always
    returns; afterwards the path is not found, every other path of the
    parent is looked up as before and the parent's other fields are the
    same. *)
Theorem remove_child_by_path_removes_one_entry (h : heap) (p : loc)
    (pdev : LdmDevice) (path : string) :
  h !! p = Some pdev →
  ∃ (h' : heap) (pdev' : LdmDevice),
    ldm_device_remove_child_by_path h (Some p) (Some path) = Some h' ∧
    ldm_device_get_child_by_path h' (Some p) (Some path) = Some None ∧
    (∀ key, key ≠ path →
            ldm_device_get_child_by_path h' (Some p) (Some key) =
            ldm_device_get_child_by_path h (Some p) (Some key)) ∧
    h' !! p = Some pdev' ∧
    set_tree_kids (tree_kids pdev) pdev' = pdev.
Proof.
  intros Hp. eexists _, _. split; [by apply remove_child_by_path_store|].
  assert (Hp' : <[p := set_tree_kids (delete path (tree_kids pdev)) pdev]> h !! p
                = Some (set_tree_kids (delete path (tree_kids pdev)) pdev))
    by apply lookup_insert_eq.
  split; [|split; [|split; [exact Hp'|]]].
  - rewrite (get_child_by_path_lookup _ _ _ _ Hp'). simpl.
    by rewrite lookup_delete_eq.
  - intros key Hne.
    rewrite (get_child_by_path_lookup _ _ _ _ Hp'),
      (get_child_by_path_lookup _ _ _ _ Hp). simpl.
    by rewrite lookup_delete_ne.
  - by destruct pdev.
Qed.

(** X2.  [ldm_device_add_child] of a child that has a path changes one
    table entry of the parent: every other path of the parent is looked
    up as before, and the parent's other fields, its parent link
    included, are the same. *)
Theorem add_child_changes_one_entry (h : heap) (p c : loc) (pdev cdev : LdmDevice)
    (path : string) :
  h !! p = Some pdev →
  h !! c = Some cdev →
  os_sysfs_path cdev = Some path →
  ∃ (h' : heap) (pdev' : LdmDevice),
    ldm_device_add_child h (Some p) (Some c) = Some h' ∧
    (∀ key, key ≠ path →
            ldm_device_get_child_by_path h' (Some p) (Some key) =
            ldm_device_get_child_by_path h (Some p) (Some key)) ∧
    h' !! p = Some pdev' ∧
    set_tree_kids (tree_kids pdev) pdev' = pdev.
Proof.
  intros Hp Hc Hpath. eexists _, _.
  split; [by apply (add_child_store h p c pdev cdev path)|].
  assert (Hp' : <[p := set_tree_kids (<[path := c]> (tree_kids pdev)) pdev]> h !! p
                = Some (set_tree_kids (<[path := c]> (tree_kids pdev)) pdev))
    by apply lookup_insert_eq.
  split; [|split; [exact Hp'|]].
  - intros key Hne.
    rewrite (get_child_by_path_lookup _ _ _ _ Hp'),
      (get_child_by_path_lookup _ _ _ _ Hp). simpl.
    by rewrite lookup_insert_ne.
  - by destruct pdev.
Qed.

(** X3.  Adding a child under a path that the parent does not have yet
    and removing it again, by path or by node, gives the parent back as
    it was: its table and all its other fields. *)
Theorem add_then_remove_restores (h : heap) (p c : loc) (pdev cdev : LdmDevice)
    (path : string) :
  h !! p = Some pdev →
  h !! c = Some cdev →
  os_sysfs_path cdev = Some path →
  tree_kids pdev !! path = None →
  ∃ h' h'' : heap,
    ldm_device_add_child h (Some p) (Some c) = Some h' ∧
    ldm_device_remove_child_by_path h' (Some p) (Some path) = Some h'' ∧
    ldm_device_remove_child h' (Some p) (Some c) = Some h'' ∧
    h'' !! p = Some pdev.
Proof.
  intros Hp Hc Hpath Hnew. exists (<[p := set_tree_kids (<[path := c]> (tree_kids pdev)) pdev]> h), h.
  split; [by apply (add_child_store h p c pdev cdev path)|].
  set (pdev' := set_tree_kids (<[path := c]> (tree_kids pdev)) pdev).
  assert (Hp' : <[p := pdev']> h !! p = Some pdev') by apply lookup_insert_eq.
  assert (Hback : ldm_device_remove_child_by_path (<[p := pdev']> h) (Some p) (Some path)
                  = Some h).
  { rewrite (remove_child_by_path_store _ _ _ _ Hp'). f_equal.
    assert (set_tree_kids (delete path (tree_kids pdev')) pdev' = pdev) as ->.
    { unfold pdev'. destruct pdev; simpl in *. by rewrite delete_insert_id. }
    by rewrite insert_insert_eq, insert_id. }
  split; [exact Hback|]. split; [|done].
  unfold ldm_device_remove_child, ldm_device_get_path. simpl.
  assert (∃ cdev', <[p := pdev']> h !! c = Some cdev' ∧ os_sysfs_path cdev' = Some path)
    as (cdev' & Hc' & Hpath').
  { destruct (decide (c = p)) as [->|Hne].
    - exists pdev'. split; [done|]. unfold pdev'. simpl. congruence.
    - exists cdev. by rewrite lookup_insert_ne. }
  rewrite Hc'. simpl. by rewrite Hpath'.
Qed.

(** X4.  [ldm_device_add_child] is idempotent: adding the same child
    again leaves the store as the first call made it. *)
Theorem add_child_twice_is_once (h : heap) (p : loc) (child : option loc) (h' : heap) :
  ldm_device_add_child h (Some p) child = Some h' →
  ldm_device_add_child h' (Some p) child = Some h'.
Proof.
  intros H. apply add_child_inv in H as (pdev & c & cdev & path & Hp & -> & Hc & Hpath & ->).
  set (pdev' := set_tree_kids (<[path := c]> (tree_kids pdev)) pdev).
  assert (Hp' : <[p := pdev']> h !! p = Some pdev') by apply lookup_insert_eq.
  assert (∃ cdev', <[p := pdev']> h !! c = Some cdev' ∧ os_sysfs_path cdev' = Some path)
    as (cdev' & Hc' & Hpath').
  { destruct (decide (c = p)) as [->|Hne].
    - exists pdev'. split; [done|]. unfold pdev'. simpl. congruence.
    - exists cdev. by rewrite lookup_insert_ne. }
  rewrite (add_child_store _ p c pdev' cdev' path Hp' Hc' Hpath'). f_equal.
  assert (set_tree_kids (<[path := c]> (tree_kids pdev')) pdev' = pdev') as ->.
  { unfold pdev'. destruct pdev; simpl. by rewrite insert_insert_eq. }
  by rewrite insert_insert_eq.
Qed.

(** X5.  Unlike a [NULL] device, a [NULL] child or path is not
    absorbed: it reaches [g_str_hash] as a [NULL] key.  On a valid parent
    [ldm_device_add_child] and [ldm_device_remove_child] have a result
    exactly when the child is a valid instance with a path, and
    [ldm_device_remove_child_by_path] and [ldm_device_get_child_by_path]
    exactly when the path is not [NULL]. *)
Theorem tree_calls_defined_iff (h : heap) (p : loc) (pdev : LdmDevice)
    (child : option loc) (path : option string) :
  h !! p = Some pdev →
  (is_Some (ldm_device_add_child h (Some p) child) ↔
   ∃ c cdev key,
     child = Some c ∧ h !! c = Some cdev ∧ os_sysfs_path cdev = Some key) ∧
  (is_Some (ldm_device_remove_child h (Some p) child) ↔
   ∃ c cdev key,
     child = Some c ∧ h !! c = Some cdev ∧ os_sysfs_path cdev = Some key) ∧
  (is_Some (ldm_device_remove_child_by_path h (Some p) path) ↔ is_Some path) ∧
  (is_Some (ldm_device_get_child_by_path h (Some p) path) ↔ is_Some path).
Proof.
  intros Hp.
  assert (Hremove : ∀ path', is_Some (ldm_device_remove_child_by_path h (Some p) path')
                             ↔ is_Some path').
  { intros [key|].
    - rewrite (remove_child_by_path_store h p pdev key Hp). split; by eexists.
    - unfold ldm_device_remove_child_by_path. rewrite Hp. simpl.
      split; intros [? ?]; done. }
  split; [|split; [|split; [apply Hremove|]]].
  - split.
    + intros [h' H].
      apply add_child_inv in H as (_ & c & cdev & key & _ & -> & Hc & Hpath & _).
      by exists c, cdev, key.
    + intros (c & cdev & key & -> & Hc & Hpath).
      rewrite (add_child_store h p c pdev cdev key Hp Hc Hpath). by eexists.
  - unfold ldm_device_remove_child, ldm_device_get_path. split.
    + intros [h' H]. apply bind_Some in H as (id & Hid & H).
      destruct child as [c|].
      * apply bind_Some in Hid as (cdev & Hc & [= <-]).
        destruct (proj1 (Hremove (os_sysfs_path cdev))) as [key Hkey]; [by eexists|].
        by exists c, cdev, key.
      * injection Hid as <-. destruct (proj1 (Hremove None)); [by eexists | done].
    + intros (c & cdev & key & -> & Hc & Hpath). rewrite Hc. simpl.
      rewrite Hpath. apply Hremove. by eexists.
  - destruct path as [key|].
    + rewrite (get_child_by_path_lookup h p pdev key Hp). split; by eexists.
    + unfold ldm_device_get_child_by_path. rewrite Hp. simpl.
      split; intros [? ?]; done.
Qed.

(** X6.  The three mutators and the tree accessors absorb a [NULL]
    device: the mutators return without looking at their other argument
    and leave the store as it is, the accessors return [NULL] or the
    empty list. *)
Theorem null_parent_is_absorbed (h : heap) (child : option loc) (path : option string) :
  ldm_device_add_child h None child = Some h ∧
  ldm_device_remove_child h None child = Some h ∧
  ldm_device_remove_child_by_path h None path = Some h ∧
  ldm_device_get_child_by_path h None path = Some None ∧
  ldm_device_get_children h None = Some [] ∧
  ldm_device_get_parent h None = Some None.
Proof. done. Qed.

(** X7.  [ldm_device_get_children] lists exactly the nodes that
    [ldm_device_get_child_by_path] finds under some path; in a store
    whose tables are keyed by the paths of the children no node is
    listed twice. *)
Theorem get_children_lists_the_entries (h : heap) (p : loc) (pdev : LdmDevice) :
  h !! p = Some pdev →
  ∃ children : list loc,
    ldm_device_get_children h (Some p) = Some children ∧
    (∀ c, c ∈ children ↔
          ∃ path, ldm_device_get_child_by_path h (Some p) (Some path) = Some (Some c)) ∧
    (keyed_by_path h → NoDup children).
Proof.
  intros Hp. exists (g_hash_table_get_values (tree_kids pdev)).
  split; [unfold ldm_device_get_children; by rewrite Hp|].
  unfold g_hash_table_get_values. split.
  - intros c. rewrite list_elem_of_fmap. split.
    + intros ([path c'] & -> & Hin). exists path.
      rewrite (get_child_by_path_lookup _ _ _ _ Hp). f_equal.
      by apply elem_of_map_to_list.
    + intros (path & Hget). rewrite (get_child_by_path_lookup _ _ _ _ Hp) in Hget.
      exists (path, c). split; [done|]. apply elem_of_map_to_list. congruence.
  - intros Hkeyed. apply NoDup_fmap_2_strong; [|apply NoDup_map_to_list].
    intros [k1 c1] [k2 c2] H1 H2 Heq. simpl in Heq. subst c2.
    apply elem_of_map_to_list in H1, H2.
    destruct (Hkeyed p k1 c1) as (cdev1 & Hc1 & Hpath1); [by exists pdev|].
    destruct (Hkeyed p k2 c1) as (cdev2 & Hc2 & Hpath2); [by exists pdev|].
    f_equal. congruence.
Qed.

(** X9.  [ldm_device_add_child] does not look for cycles.  A node
    without children can be added to itself, and then a query for a mask
    that the node itself does not match recurses without end: it has no
    result for any bound on the recursion. *)
Theorem add_child_to_itself_makes_queries_diverge (h : heap) (p : loc)
    (pdev : LdmDevice) (path : string) (mask : Z) :
  h !! p = Some pdev →
  tree_kids pdev = ∅ →
  os_sysfs_path pdev = Some path →
  Z.land (os_devtype pdev) mask ≠ mask →
  ∃ h' : heap,
    ldm_device_add_child h (Some p) (Some p) = Some h' ∧
    (∀ d, ldm_device_has_type d h' (Some p) mask = None) ∧
    (Z.land (os_attributes pdev) mask ≠ mask →
     ∀ d, ldm_device_has_attribute d h' (Some p) mask = None) ∧
    (∀ d, subtree_within d h' p = false).
Proof.
  intros Hp Hleaf Hpath Hmask. eexists.
  split; [by apply (add_child_store h p p pdev pdev path)|].
  rewrite Hleaf, insert_empty.
  set (pdev' := set_tree_kids {[path := p]} pdev).
  assert (Hp' : <[p := pdev']> h !! p = Some pdev') by apply lookup_insert_eq.
  assert (Htype : ∀ d, ldm_device_has_type d (<[p := pdev']> h) (Some p) mask = None).
  { induction d as [|d IH]; [done|]. simpl. rewrite Hp'. simpl.
    rewrite (proj2 (Z.eqb_neq _ _) Hmask).
    rewrite map_to_list_singleton. simpl. by rewrite IH. }
  split; [exact Htype|]. split.
  - intros Hattr [|d]; [done|]. simpl. rewrite Hp'. simpl.
    rewrite (proj2 (Z.eqb_neq _ _) Hattr).
    rewrite map_to_list_singleton. simpl. by rewrite Htype.
  - induction d as [|d IH]; [done|]. simpl. rewrite Hp'. simpl.
    rewrite map_to_list_singleton. simpl. by rewrite IH.
Qed.

(** ** The recursive queries: masks, ancestors, frames *)

(** A result [TRUE] always has a witness in the subtree. *)
Lemma ldm_device_has_type_true_sound d h l mask :
  ldm_device_has_type d h (Some l) mask = Some true →
  ∃ n ndev, reach h l n ∧ h !! n = Some ndev ∧ matches (os_devtype ndev) mask.
Proof.
  revert l. induction d as [|d IH]; intros l; [done|]. simpl.
  destruct (h !! l) as [dev|] eqn:Hl; [|done].
  destruct (Z.eqb_spec (Z.land (os_devtype dev) mask) mask) as [Hm|Hm].
  { intros _. exists l, dev. split; [constructor | done]. }
  assert (Hwalk : ∀ entries,
            (∀ key c, (key, c) ∈ entries → tree_kids dev !! key = Some c) →
            walk_children (λ value, ldm_device_has_type d h (Some value) mask) entries
            = Some true →
            ∃ n ndev, reach h l n ∧ h !! n = Some ndev ∧ matches (os_devtype ndev) mask).
  { induction entries as [|[key c] rest IHe]; [done|]. intros Hin. simpl.
    destruct (ldm_device_has_type d h (Some c) mask) as [[|]|] eqn:Hc; [|
      |done].
    - intros _. destruct (IH c Hc) as (n & ndev & Hr & Hn & Hmn).
      exists n, ndev. split; [|done].
      apply (reach_kid h l key c n); [|done]. exists dev. split; [done|].
      apply Hin. left.
    - apply IHe. intros k' c' Hin'. apply Hin. by right. }
  apply Hwalk. intros key c Hin. by apply elem_of_map_to_list.
Qed.

Lemma reach_trans h a b c : reach h a b → reach h b c → reach h a c.
Proof.
  induction 1 as [|a key k b Hk _ IH]; [done|].
  intros Hbc. apply (reach_kid h a key k c Hk). by apply IH.
Qed.

Lemma matches_submask x m m' :
  Z.land x m = m → Z.land m m' = m' → Z.land x m' = m'.
Proof. intros Hx Hm. rewrite <- Hm at 1. by rewrite Z.land_assoc, Hx. Qed.

(** X10.  A query for several bits at once answers for each part: when
    [ldm_device_has_type] is [TRUE] for a mask, it is [TRUE] for every
    mask contained in it, on a node with a finite subtree. *)
Theorem has_type_of_a_submask (h : heap) (d : nat) (l : loc) (mask mask' : Z) :
  subtree_within d h l = true →
  Z.land mask mask' = mask' →
  ldm_device_has_type d h (Some l) mask = Some true →
  ldm_device_has_type d h (Some l) mask' = Some true.
Proof.
  intros Hd Hsub Htrue.
  destruct (ldm_device_has_type_true_sound d h l mask Htrue) as (n & ndev & Hr & Hn & Hm).
  destruct (ldm_device_has_type_within d h l mask' Hd) as (b & Hb & Hiff).
  rewrite Hb. f_equal. apply Hiff. exists n, ndev. split; [done|]. split; [done|].
  by apply (matches_submask _ mask).
Qed.

(** X11.  A device is the sum of its parts: when [ldm_device_has_type]
    is [TRUE] on a node, it is [TRUE] on every node that reaches it
    through the children tables and has a finite subtree. *)
Theorem has_type_rises_to_ancestors (h : heap) (d d' : nat) (a n : loc) (mask : Z) :
  subtree_within d h a = true →
  reach h a n →
  ldm_device_has_type d' h (Some n) mask = Some true →
  ldm_device_has_type d h (Some a) mask = Some true.
Proof.
  intros Hd Hreach Htrue.
  destruct (ldm_device_has_type_true_sound d' h n mask Htrue) as (m & mdev & Hr & Hm & Hmm).
  destruct (ldm_device_has_type_within d h a mask Hd) as (b & Hb & Hiff).
  rewrite Hb. f_equal. apply Hiff. exists m, mdev. split; [|done].
  by apply (reach_trans h a n m).
Qed.

(** X12.  On a node without children both queries are the test on the
    node's own bitmask, the one that [ldm_device_get_device_type] and
    [ldm_device_get_attributes] return. *)
Theorem queries_on_a_leaf (h : heap) (l : loc) (dev : LdmDevice) (d : nat) (mask : Z) :
  h !! l = Some dev →
  tree_kids dev = ∅ →
  ∃ devtype attributes : Z,
    ldm_device_get_device_type h (Some l) = Some devtype ∧
    ldm_device_get_attributes h (Some l) = Some attributes ∧
    ldm_device_has_type (S d) h (Some l) mask = Some (Z.land devtype mask =? mask) ∧
    ldm_device_has_attribute (S d) h (Some l) mask
    = Some (Z.land attributes mask =? mask).
Proof.
  intros Hl Hleaf. exists (os_devtype dev), (os_attributes dev).
  unfold ldm_device_get_device_type, ldm_device_get_attributes. simpl.
  rewrite Hl. simpl. rewrite Hleaf, map_to_list_empty. simpl.
  repeat split; by case_match.
Qed.

Lemma walk_children_pointwise (test test' : loc → option bool) entries :
  (∀ c, test c = test' c) →
  walk_children test entries = walk_children test' entries.
Proof.
  intros Heq. induction entries as [|[key c] rest IH]; [done|]. simpl.
  rewrite <- Heq. by rewrite IH.
Qed.

(** A result of a query stays when the store grows. *)
Lemma ldm_device_has_type_weaken d h h' self mask b :
  h ⊆ h' →
  ldm_device_has_type d h self mask = Some b →
  ldm_device_has_type d h' self mask = Some b.
Proof.
  intros Hsub. revert self b. induction d as [|d IH]; intros self b.
  - by destruct self.
  - destruct self as [l|]; [|done]. simpl.
    destruct (h !! l) as [dev|] eqn:Hl; [|done].
    rewrite (lookup_weaken h h' l dev Hl Hsub).
    destruct (Z.land (os_devtype dev) mask =? mask); [done|].
    apply walk_children_ext. intros c r. apply IH.
Qed.

Lemma ldm_device_has_attribute_weaken d h h' self mask b :
  h ⊆ h' →
  ldm_device_has_attribute d h self mask = Some b →
  ldm_device_has_attribute d h' self mask = Some b.
Proof.
  intros Hsub. destruct self as [l|]; [|by destruct d].
  destruct d as [|d]; [done|]. simpl.
  destruct (h !! l) as [dev|] eqn:Hl; [|done].
  rewrite (lookup_weaken h h' l dev Hl Hsub).
  destruct (Z.land (os_attributes dev) mask =? mask); [done|].
  apply walk_children_ext. intros c r. by apply ldm_device_has_type_weaken.
Qed.

(** X13.  Adding a child whose own type matches a mask makes the parent
    answer [TRUE] for that mask, provided the subtree of the parent is
    still finite afterwards. *)
Theorem added_child_type_shows_on_parent (h : heap) (p c : loc)
    (pdev cdev : LdmDevice) (path : string) (mask : Z) (d : nat) :
  h !! p = Some pdev →
  h !! c = Some cdev →
  os_sysfs_path cdev = Some path →
  Z.land (os_devtype cdev) mask = mask →
  ∃ h' : heap,
    ldm_device_add_child h (Some p) (Some c) = Some h' ∧
    (subtree_within d h' p = true →
     ldm_device_has_type d h' (Some p) mask = Some true).
Proof.
  intros Hp Hc Hpath Hmask. eexists.
  split; [by apply (add_child_store h p c pdev cdev path)|].
  set (pdev' := set_tree_kids (<[path := c]> (tree_kids pdev)) pdev).
  intros Hd.
  destruct (ldm_device_has_type_within d _ p mask Hd) as (b & Hb & Hiff).
  rewrite Hb. f_equal. apply Hiff.
  assert (∃ cdev', <[p := pdev']> h !! c = Some cdev' ∧
                   os_devtype cdev' = os_devtype cdev) as (cdev' & Hc' & Hty).
  { destruct (decide (c = p)) as [->|Hne].
    - exists pdev'. split; [apply lookup_insert_eq|].
      unfold pdev'. simpl. congruence.
    - exists cdev. by rewrite lookup_insert_ne. }
  exists c, cdev'. split; [|split; [done|]].
  - apply (kid_reach _ p path c). exists pdev'.
    split; [apply lookup_insert_eq|]. unfold pdev'. simpl. apply lookup_insert_eq.
  - unfold matches. by rewrite Hty.
Qed.

Lemma ldm_device_has_type_ignores_attributes d h l' dev' a self mask :
  h !! l' = Some dev' →
  ldm_device_has_type d (<[l' := set_os_attributes a dev']> h) self mask =
  ldm_device_has_type d h self mask.
Proof.
  intros Hl'. revert self. induction d as [|d IH]; intros self; [done|].
  destruct self as [l|]; [|done]. simpl.
  destruct (decide (l = l')) as [->|Hne].
  - rewrite lookup_insert_eq, Hl'. simpl.
    destruct (Z.land (os_devtype dev') mask =? mask); [done|].
    apply walk_children_pointwise. intros c. apply IH.
  - rewrite lookup_insert_ne by done.
    destruct (h !! l) as [dev|]; [|done].
    destruct (Z.land (os_devtype dev) mask =? mask); [done|].
    apply walk_children_pointwise. intros c. apply IH.
Qed.

(** X14.  The attributes of the other nodes are never read: giving any
    node other than the queried one any attribute bitmask changes no
    answer of [ldm_device_has_attribute], and no attribute bitmask of any
    node, the queried one included, changes an answer of
    [ldm_device_has_type]. *)
Theorem queries_ignore_attributes_below (h : heap) (l l' : loc) (dev' : LdmDevice)
    (a : Z) (d : nat) (mask : Z) :
  h !! l' = Some dev' →
  (l' ≠ l →
   ldm_device_has_attribute d (<[l' := set_os_attributes a dev']> h) (Some l) mask =
   ldm_device_has_attribute d h (Some l) mask) ∧
  ldm_device_has_type d (<[l' := set_os_attributes a dev']> h) (Some l) mask =
  ldm_device_has_type d h (Some l) mask.
Proof.
  intros Hl'. split; [|by apply ldm_device_has_type_ignores_attributes].
  intros Hne. destruct d as [|d]; [done|]. simpl.
  rewrite lookup_insert_ne by done.
  destruct (h !! l) as [dev|]; [|done].
  destruct (Z.land (os_attributes dev) mask =? mask); [done|].
  apply walk_children_pointwise. intros c.
  by apply ldm_device_has_type_ignores_attributes.
Qed.

(** ** Construction: what every new instance has *)

Lemma last_value_is_Some properties name value :
  (name, value) ∈ properties → is_Some (last_value properties name).
Proof.
  induction properties as [|[n v] rest IH]; intros Hin.
  - by apply elem_of_nil in Hin.
  - simpl. destruct (last_value rest name) eqn:Hrest; [by eexists|].
    apply elem_of_cons in Hin as [[= <- <-]|Hin].
    + rewrite decide_True by done. by eexists.
    + destruct (IH Hin) as [? ?]. congruence.
Qed.

Lemma last_value_None properties name :
  name ∉ properties.*1 → last_value properties name = None.
Proof.
  induction properties as [|[n v] rest IH]; intros Hnot; [done|]. simpl in *.
  rewrite IH by (intros ?; apply Hnot; by right).
  rewrite decide_False; [done|]. intros ->. apply Hnot. left.
Qed.

Lemma last_value_NoDup properties name value :
  NoDup properties.*1 → (name, value) ∈ properties →
  last_value properties name = Some value.
Proof.
  induction properties as [|[n v] rest IH]; intros Hnd Hin.
  - by apply elem_of_nil in Hin.
  - simpl in *. apply NoDup_cons in Hnd as [Hn Hnd].
    apply elem_of_cons in Hin as [[= <- <-]|Hin].
    + rewrite last_value_None by done. by rewrite decide_True.
    + by rewrite (IH Hnd Hin).
Qed.

Lemma hwdb_phase_table properties self key :
  os_hwdb_info (hwdb_phase properties self) !! key =
  match last_value properties key with
  | Some v => Some v
  | None => os_hwdb_info self !! key
  end.
Proof.
  destruct properties as [|e rest]; [done|].
  rewrite <- duplicate_hwdb_lookup.
  unfold hwdb_phase, g_hash_table_lookup.
  set (t := duplicate_hwdb (e :: rest) (os_hwdb_info self)). simpl.
  repeat case_match; done.
Qed.

(** X15.  The copy of the hardware data (lines 424-439): afterwards the
    private table binds a key to the value of its last entry in the list,
    and a key that the list does not have to what it was bound to before;
    so every name of the list is bound, and to its own value when the
    list has no name twice. *)
Theorem hwdb_copy_binds_the_list (properties : udev_list) (self : LdmDevice) :
  (∀ key, os_hwdb_info (hwdb_phase properties self) !! key =
          match last_value properties key with
          | Some v => Some v
          | None => os_hwdb_info self !! key
          end) ∧
  (∀ name value, (name, value) ∈ properties →
                 is_Some (os_hwdb_info (hwdb_phase properties self) !! name)) ∧
  (NoDup properties.*1 →
   ∀ name value, (name, value) ∈ properties →
                 os_hwdb_info (hwdb_phase properties self) !! name = Some value).
Proof.
  split; [apply hwdb_phase_table|]. split.
  - intros name value Hin. rewrite hwdb_phase_table.
    destruct (last_value_is_Some _ _ _ Hin) as [v ->]. by eexists.
  - intros Hnd name value Hin. rewrite hwdb_phase_table.
    by rewrite (last_value_NoDup _ _ _ Hnd Hin).
Qed.

Lemma name_fallback_fallback_name d :
  id_name d = None →
  id_name (name_fallback d) = Some ("Device " +:+ printf_x (id_product_id d)).
Proof. intros Hn. by rewrite name_fallback_name, Hn. Qed.

Lemma printf_x_mod v : printf_x (v `mod` 2 ^ 32) = printf_x v.
Proof. unfold printf_x. by rewrite Z.mod_mod. Qed.

(** X16.  The fallback name identifies the product id: two devices
    without a model get the same name exactly when their product ids are
    the same as [unsigned int] (modulo 2^32). *)
Theorem fallback_name_identifies_product_id (d1 d2 : LdmDevice) :
  id_name d1 = None →
  id_name d2 = None →
  id_name (name_fallback d1) = id_name (name_fallback d2) ↔
  id_product_id d1 `mod` 2 ^ 32 = id_product_id d2 `mod` 2 ^ 32.
Proof.
  intros H1 H2. rewrite !name_fallback_fallback_name by done. split.
  - intros [= Heq]. cbv [String.append] in Heq.
    pose proof (printf_x_value (id_product_id d1)) as Hv1.
    pose proof (printf_x_value (id_product_id d2)) as Hv2.
    rewrite Heq in Hv1. congruence.
  - intros Heq. do 2 f_equal.
    by rewrite <- (printf_x_mod (id_product_id d1)), Heq, printf_x_mod.
Qed.

Section MoreConstructionFacts.

Variable subclass_init : GType → LdmDevice → LdmDevice.
Variable ldm_pci_device_init_private : LdmDevice → udev_device → LdmDevice.
Variable ldm_usb_device_init_private : LdmDevice → udev_device → LdmDevice.
Variable ldm_dmi_device_init_private : LdmDevice → udev_device → LdmDevice.
Variable ldm_bluetooth_device_init_private : LdmDevice → udev_device → LdmDevice.

Local Abbreviation new_from_udev :=
  (ldm_device_new_from_udev subclass_init ldm_pci_device_init_private
     ldm_usb_device_init_private ldm_dmi_device_init_private
     ldm_bluetooth_device_init_private).
Local Abbreviation keep_header :=
  (initialisers_keep_header subclass_init ldm_pci_device_init_private
     ldm_usb_device_init_private ldm_dmi_device_init_private
     ldm_bluetooth_device_init_private).
Local Abbreviation run :=
  (run_calls subclass_init ldm_pci_device_init_private
     ldm_usb_device_init_private ldm_dmi_device_init_private
     ldm_bluetooth_device_init_private).

(** X17.  Every constructed device has a name: whatever the record, the
    hardware data and the initialisers of the subclasses,
    [ldm_device_get_name] on a new instance is not [NULL]. *)
Theorem constructed_device_has_a_name (h : heap) (parent : option loc)
    (device : udev_device) (properties : udev_list) (l : loc) (h' : heap) :
  new_from_udev h parent device properties = Some (l, h') →
  ∃ name : string, ldm_device_get_name h' (Some l) = Some (Some name).
Proof.
  intros H.
  apply (new_from_udev_inv subclass_init) in H as (s & self & _ & -> & _ & -> & Hself).
  unfold ldm_device_get_name. rewrite lookup_insert_eq. simpl.
  rewrite Hself, name_fallback_name. case_match; by eexists.
Qed.

(** X18.  Construction takes an address that the store does not use and
    leaves everything else alone: every instance of the store is the
    same afterwards, and every query and lookup on the old store has the
    same answer in the new one. *)
Theorem construction_leaves_the_store_alone (h : heap) (parent : option loc)
    (device : udev_device) (properties : udev_list) (l : loc) (h' : heap) :
  new_from_udev h parent device properties = Some (l, h') →
  h !! l = None ∧ is_Some (h' !! l) ∧
  (∀ q, q ≠ l → h' !! q = h !! q) ∧
  (∀ d self mask b,
     ldm_device_has_type d h self mask = Some b →
     ldm_device_has_type d h' self mask = Some b) ∧
  (∀ d self mask b,
     ldm_device_has_attribute d h self mask = Some b →
     ldm_device_has_attribute d h' self mask = Some b) ∧
  (∀ p path r,
     ldm_device_get_child_by_path h (Some p) path = Some r →
     ldm_device_get_child_by_path h' (Some p) path = Some r).
Proof.
  intros H.
  apply (new_from_udev_inv subclass_init) in H as (s & self & _ & -> & Hfresh & -> & _).
  assert (h ⊆ <[fresh (dom h) := self]> h) as Hsub by by apply insert_subseteq.
  split; [done|]. split; [by rewrite lookup_insert_eq|].
  split; [by intros q Hne; rewrite lookup_insert_ne|].
  split; [by intros d self0 mask b; apply ldm_device_has_type_weaken|].
  split; [by intros d self0 mask b; apply ldm_device_has_attribute_weaken|].
  intros p path r. unfold ldm_device_get_child_by_path.
  intros Hget. apply bind_Some in Hget as (pdev & Hp & Hget).
  by rewrite (lookup_weaken _ _ _ _ Hp Hsub).
Qed.

(** X19.  A new instance is not attached.  With initialisers that keep
    the header, constructing a device for a parent of a store keyed by
    the paths of the children makes it nobody's child, its parent's
    included, and gives it no children: attaching is a call of
    [ldm_device_add_child] of its own. *)
Theorem constructed_device_is_unattached (h : heap) (parent : option loc)
    (device : udev_device) (properties : udev_list) (l : loc) (h' : heap) :
  keep_header →
  keyed_by_path h →
  new_from_udev h parent device properties = Some (l, h') →
  (∀ q path, ldm_device_get_child_by_path h' (Some q) (Some path) ≠ Some (Some l)) ∧
  ldm_device_get_children h' (Some l) = Some [] ∧
  ldm_device_get_parent h' (Some l) = Some parent.
Proof.
  intros Hinit Hkeyed H.
  apply (new_from_udev_inv subclass_init) in H as (s & self & _ & -> & Hfresh & -> & Hself).
  destruct (new_instance_header subclass_init _ _ _ _ (special_type_of s) parent
              device properties Hinit) as (_ & Hparent & Hkids).
  rewrite <- Hself in Hparent, Hkids.
  split; [|split].
  - intros q path Hget. unfold ldm_device_get_child_by_path in Hget.
    apply bind_Some in Hget as (qdev & Hq & [= Hget]).
    unfold g_hash_table_lookup in Hget.
    destruct (decide (q = fresh (dom h))) as [->|Hne].
    + rewrite lookup_insert_eq in Hq. injection Hq as <-.
      by rewrite Hkids, lookup_empty in Hget.
    + rewrite lookup_insert_ne in Hq by done.
      destruct (Hkeyed q path (fresh (dom h))) as (cdev & Hc & _); [by exists qdev|].
      congruence.
  - unfold ldm_device_get_children. rewrite lookup_insert_eq. simpl.
    unfold g_hash_table_get_values. by rewrite Hkids, map_to_list_empty.
  - unfold ldm_device_get_parent. rewrite lookup_insert_eq. simpl. by rewrite Hparent.
Qed.

(** X20.  The subsystems "hid" and "ieee80211" select a subclass but
    reach none of the four [..._init_private] calls of lines 463-471:
    the constructed store does not depend on those functions. *)
Theorem hid_and_wifi_run_no_init_private (h : heap) (parent : option loc)
    (device : udev_device) (properties : udev_list) (s : string) :
  udev_device_get_subsystem device = Some s →
  s = "hid" ∨ s = "ieee80211" →
  new_from_udev h parent device properties =
  ldm_device_new_from_udev subclass_init no_init_private no_init_private
    no_init_private no_init_private h parent device properties.
Proof.
  intros Hs Hcase. unfold ldm_device_new_from_udev. rewrite Hs. simpl.
  by destruct Hcase as [-> | ->].
Qed.

(** X21.  A plain [LdmDevice] (a subsystem outside the table) comes out
    of construction with the path and the modalias of the udev record,
    the given parent, no children, the empty type and attribute bitmasks
    and the ids 0. *)
Theorem plain_device_after_construction (h : heap) (parent : option loc)
    (device : udev_device) (properties : udev_list) (s : string) (l : loc) (h' : heap) :
  udev_device_get_subsystem device = Some s →
  special_type_of s = LDM_TYPE_DEVICE →
  new_from_udev h parent device properties = Some (l, h') →
  ldm_device_get_path h' (Some l) = Some (udev_device_get_syspath device) ∧
  ldm_device_get_modalias h' (Some l)
  = Some (udev_device_get_sysattr_value device "modalias") ∧
  ldm_device_get_parent h' (Some l) = Some parent ∧
  ldm_device_get_children h' (Some l) = Some [] ∧
  ldm_device_get_device_type h' (Some l) = Some LDM_DEVICE_TYPE_ANY ∧
  ldm_device_get_attributes h' (Some l) = Some LDM_DEVICE_ATTRIBUTE_NONE ∧
  ldm_device_get_vendor_id h' (Some l) = Some 0 ∧
  ldm_device_get_product_id h' (Some l) = Some 0.
Proof.
  intros Hs Hgen H.
  rewrite (new_from_udev_unfold subclass_init _ _ _ _ _ _ _ _ _ Hs) in H.
  injection H as <- <-. rewrite Hgen.
  unfold ldm_device_get_path, ldm_device_get_modalias, ldm_device_get_parent,
    ldm_device_get_children, ldm_device_get_device_type, ldm_device_get_attributes,
    ldm_device_get_vendor_id, ldm_device_get_product_id.
  rewrite lookup_insert_eq. simpl.
  unfold init_private_phase. simpl.
  set (base := set_basics device (g_object_new subclass_init LDM_TYPE_DEVICE parent)).
  assert (Hbase : os_sysfs_path base = udev_device_get_syspath device ∧
                  os_modalias base = udev_device_get_sysattr_value device "modalias" ∧
                  tree_parent base = parent ∧ tree_kids base = ∅ ∧
                  os_devtype base = 0 ∧ os_attributes base = 0 ∧
                  id_vendor_id base = 0 ∧ id_product_id base = 0).
  { unfold base, set_basics, g_object_new. simpl.
    destruct (udev_device_get_sysattr_value device "modalias"); by simpl. }
  destruct Hbase as (Hpath & Hmod & Hpar & Hkids & Hty & Hattr & Hvid & Hpid).
  assert (Hframe : ∀ d, os_sysfs_path (name_fallback (hwdb_phase properties d))
                        = os_sysfs_path d ∧
                        os_modalias (name_fallback (hwdb_phase properties d))
                        = os_modalias d ∧
                        tree_parent (name_fallback (hwdb_phase properties d))
                        = tree_parent d ∧
                        tree_kids (name_fallback (hwdb_phase properties d))
                        = tree_kids d ∧
                        os_devtype (name_fallback (hwdb_phase properties d))
                        = os_devtype d ∧
                        os_attributes (name_fallback (hwdb_phase properties d))
                        = os_attributes d ∧
                        id_vendor_id (name_fallback (hwdb_phase properties d))
                        = id_vendor_id d ∧
                        id_product_id (name_fallback (hwdb_phase properties d))
                        = id_product_id d).
  { intros d. unfold name_fallback, hwdb_phase, g_hash_table_lookup.
    destruct properties as [|e rest]; [by case_match|].
    set (t := duplicate_hwdb (e :: rest) (os_hwdb_info d)). simpl.
    repeat case_match; done. }
  destruct (Hframe base) as (-> & -> & -> & -> & -> & -> & -> & ->).
  rewrite Hpath, Hmod, Hpar, Hkids, Hty, Hattr, Hvid, Hpid.
  unfold g_hash_table_get_values. by rewrite map_to_list_empty.
Qed.

(** X8.  In every store that a sequence of calls builds from the empty
    store, with initialisers that keep the header, a lookup by path
    returns a valid node whose own path is the one that was asked for. *)
Theorem lookup_by_path_returns_that_path (cs : list call) (h : heap) (p c : loc)
    (path : string) :
  keep_header →
  run cs ∅ = Some h →
  ldm_device_get_child_by_path h (Some p) (Some path) = Some (Some c) →
  ldm_device_get_path h (Some c) = Some (Some path).
Proof.
  intros Hinit Hrun Hget.
  pose proof (run_calls_keyed subclass_init _ _ _ _ cs ∅ h Hinit
                keyed_by_path_empty Hrun) as Hkeyed.
  unfold ldm_device_get_child_by_path in Hget.
  apply bind_Some in Hget as (pdev & Hp & [= Hget]).
  destruct (Hkeyed p path c) as (cdev & Hc & Hpath); [by exists pdev|].
  unfold ldm_device_get_path. rewrite Hc. simpl. by rewrite Hpath.
Qed.

End MoreConstructionFacts.

(** ** The GObject properties *)

Lemma installed_property_ids id (pspec : GParamSpec) :
  ldm_device_class_init !! id = Some (Some pspec) →
  id = PROP_PARENT ∨ id = PROP_PATH ∨ id = PROP_MODALIAS ∨ id = PROP_PRODUCT_ID ∨
  id = PROP_NAME ∨ id = PROP_VENDOR ∨ id = PROP_VENDOR_ID ∨ id = PROP_DEV_TYPE ∨
  id = PROP_ATTRIBUTES.
Proof.
  intros H. pose proof (lookup_lt_Some _ _ _ H) as Hlt.
  change (length ldm_device_class_init) with 10%nat in Hlt.
  destruct id as [|id]; [discriminate H|].
  unfold PROP_PARENT, PROP_PATH, PROP_MODALIAS, PROP_PRODUCT_ID, PROP_NAME,
    PROP_VENDOR, PROP_VENDOR_ID, PROP_DEV_TYPE, PROP_ATTRIBUTES. lia.
Qed.

(** X22.  Every property id from 1 to [N_PROPS - 1] has a readable
    [GParamSpec]; [ldm_device_get_property] handles it without a
    warning and fills a value of the declared type; and the property
    named "parent", "path", "modalias", "name", "vendor", "product-id",
    "vendor-id", "device-type" or "attributes" reads what the accessor of
    that name returns.  The nine names are distinct. *)
Theorem properties_read_what_the_accessors_return (h : heap) (l : loc)
    (self : LdmDevice) (id : nat) :
  h !! l = Some self →
  (1 ≤ id < N_PROPS)%nat →
  NoDup (omap (fmap pspec_name) ldm_device_class_init) ∧
  ∃ pspec : GParamSpec,
    ldm_device_class_init !! id = Some (Some pspec) ∧
    Z.land (pspec_flags pspec) G_PARAM_READABLE = G_PARAM_READABLE ∧
    ∃ value : GValue,
      ldm_device_get_property self id (g_value_init (pspec_value_type pspec))
      = (value, false) ∧
      G_VALUE_TYPE value = pspec_value_type pspec ∧
      (pspec_name pspec = "parent" →
       GValuePointer <$> ldm_device_get_parent h (Some l) = Some value) ∧
      (pspec_name pspec = "path" →
       GValueString <$> ldm_device_get_path h (Some l) = Some value) ∧
      (pspec_name pspec = "modalias" →
       GValueString <$> ldm_device_get_modalias h (Some l) = Some value) ∧
      (pspec_name pspec = "name" →
       GValueString <$> ldm_device_get_name h (Some l) = Some value) ∧
      (pspec_name pspec = "vendor" →
       GValueString <$> ldm_device_get_vendor h (Some l) = Some value) ∧
      (pspec_name pspec = "product-id" →
       GValueInt <$> ldm_device_get_product_id h (Some l) = Some value) ∧
      (pspec_name pspec = "vendor-id" →
       GValueInt <$> ldm_device_get_vendor_id h (Some l) = Some value) ∧
      (pspec_name pspec = "device-type" →
       GValueFlags LDM_TYPE_DEVICE_TYPE <$> ldm_device_get_device_type h (Some l)
       = Some value) ∧
      (pspec_name pspec = "attributes" →
       GValueFlags LDM_TYPE_DEVICE_ATTRIBUTE <$> ldm_device_get_attributes h (Some l)
       = Some value).
Proof.
  intros Hl Hid. split.
  { apply (bool_decide_unpack _). by vm_compute. }
  unfold ldm_device_get_parent, ldm_device_get_path, ldm_device_get_modalias,
    ldm_device_get_name, ldm_device_get_vendor, ldm_device_get_product_id,
    ldm_device_get_vendor_id, ldm_device_get_device_type, ldm_device_get_attributes.
  rewrite Hl. unfold N_PROPS in Hid.
  assert (id = 1 ∨ id = 2 ∨ id = 3 ∨ id = 4 ∨ id = 5 ∨ id = 6 ∨ id = 7 ∨ id = 8 ∨
          id = 9)%nat as Hcases by lia.
  repeat (destruct Hcases as [->|Hcases]);
    [..|subst id];
    (eexists; split; [reflexivity|]; split; [reflexivity|];
     eexists; split; [reflexivity|]; split; [reflexivity|];
     repeat split; first [discriminate | reflexivity]).
Qed.

(** X23.  Only the parent can be written, and only at construction: the
    one [GParamSpec] with [G_PARAM_WRITABLE] is the one of [PROP_PARENT],
    which is construct-only, and [ldm_device_set_property] changes no
    field but [tree.parent], and that one for [PROP_PARENT] alone; every
    other id leaves the instance as it is and ends in the warning. *)
Theorem only_the_parent_is_writable (self : LdmDevice) (id : nat) (value : GValue) :
  (∀ pspec, ldm_device_class_init !! id = Some (Some pspec) →
            (Z.land (pspec_flags pspec) G_PARAM_WRITABLE ≠ 0 ↔ id = PROP_PARENT) ∧
            (id = PROP_PARENT →
             Z.land (pspec_flags pspec) G_PARAM_CONSTRUCT_ONLY ≠ 0)) ∧
  ∃ (self' : LdmDevice) (warned : bool),
    ldm_device_set_property self id value = (self', warned) ∧
    set_tree_parent (tree_parent self) self' = self ∧
    (warned = false ↔ id = PROP_PARENT) ∧
    (id = PROP_PARENT → tree_parent self' = g_value_get_pointer value) ∧
    (id ≠ PROP_PARENT → self' = self).
Proof.
  split.
  - intros pspec H.
    destruct (installed_property_ids id pspec H)
      as [->|[->|[->|[->|[->|[->|[->|[->| ->]]]]]]]];
      injection H as <-; (split; [split; [intros Hw; by vm_compute in Hw | done]
                                 | first [done | by vm_compute]]).
  - unfold ldm_device_set_property. case_decide as Hid.
    + eexists _, _. split; [done|]. repeat split; try done. by destruct self.
    + eexists _, _. split; [done|]. repeat split; try done. by destruct self.
Qed.

(** X26.  An id outside 1 .. [N_PROPS - 1] has no [GParamSpec], and
    both property functions end in the warning for it:
    [ldm_device_get_property] leaves the value and
    [ldm_device_set_property] the instance untouched. *)
Theorem unknown_property_ids_are_rejected (self : LdmDevice) (id : nat)
    (value : GValue) :
  ¬ (1 ≤ id < N_PROPS)%nat →
  (∀ pspec, ldm_device_class_init !! id ≠ Some (Some pspec)) ∧
  ldm_device_get_property self id value = (value, true) ∧
  ldm_device_set_property self id value = (self, true).
Proof.
  intros Hid. unfold N_PROPS in Hid. split; [|split].
  - intros pspec H. apply installed_property_ids in H.
    unfold PROP_PARENT, PROP_PATH, PROP_MODALIAS, PROP_PRODUCT_ID, PROP_NAME,
      PROP_VENDOR, PROP_VENDOR_ID, PROP_DEV_TYPE, PROP_ATTRIBUTES in H. lia.
  - unfold ldm_device_get_property, PROP_PARENT, PROP_PATH, PROP_MODALIAS,
      PROP_PRODUCT_ID, PROP_NAME, PROP_VENDOR, PROP_VENDOR_ID, PROP_DEV_TYPE,
      PROP_ATTRIBUTES.
    repeat case_decide; first [lia | done].
  - unfold ldm_device_set_property, PROP_PARENT. case_decide; first [lia | done].
Qed.

(** ** The monitor *)

(** X24.  What the daemon logs when a device is added.  A [NULL] device
    gives the one line with two [NULL] arguments.  A device with a
    finite subtree gives the line with its vendor and its name first,
    then "HID device!" exactly when some node of the device's subtree
    has the HID bit, then "Storage device!" exactly when some node has
    the storage bit: the lines speak of the composite device, not of the
    node alone. *)
Theorem device_added_logs_the_composite (h : heap) (d : nat) (l : loc) :
  (∀ d', ldm_daemon_device_added d' h None
         = Some [g_message "ldm_daemon_device_added(): %s %s" [None; None]]) ∧
  (subtree_within d h l = true →
   ∃ (vendor name : option string) (hid storage : bool),
     ldm_device_get_vendor h (Some l) = Some vendor ∧
     ldm_device_get_name h (Some l) = Some name ∧
     ldm_daemon_device_added d h (Some l)
     = Some (g_message "ldm_daemon_device_added(): %s %s" [vendor; name]
             :: app (if hid then [g_message "HID device!" []] else [])
                    (if storage then [g_message "Storage device!" []] else [])) ∧
     (hid = true ↔
      ∃ n ndev, reach h l n ∧ h !! n = Some ndev ∧
                Z.land (os_devtype ndev) LDM_DEVICE_TYPE_HID = LDM_DEVICE_TYPE_HID) ∧
     (storage = true ↔
      ∃ n ndev, reach h l n ∧ h !! n = Some ndev ∧
                Z.land (os_devtype ndev) LDM_DEVICE_TYPE_STORAGE
                = LDM_DEVICE_TYPE_STORAGE)).
Proof.
  split; [by intros [|d']|]. intros Hd.
  destruct (subtree_within_lookup _ _ _ Hd) as (_ & dev & _ & Hl).
  destruct (ldm_device_has_type_within d h l LDM_DEVICE_TYPE_HID Hd)
    as (hid & Hhid & Hiffh).
  destruct (ldm_device_has_type_within d h l LDM_DEVICE_TYPE_STORAGE Hd)
    as (sto & Hsto & Hiffs).
  exists (id_vendor dev), (id_name dev), hid, sto.
  unfold ldm_daemon_device_added, ldm_device_get_vendor, ldm_device_get_name.
  rewrite Hl. simpl. rewrite Hhid, Hsto. simpl.
  split; [done|]. split; [done|]. split; [by destruct hid, sto|]. by split.
Qed.

(** ** Removal never adds a type *)

Section Shrink.

Variables (h : gmap positive LdmDevice) (p : positive) (pdev : LdmDevice).
Variable kids' : gmap string positive.
Hypothesis Hp : h !! p = Some pdev.
Hypothesis Hkids : kids' ⊆ tree_kids pdev.

Local Abbreviation h' := (<[p := set_tree_kids kids' pdev]> h).

Lemma shrink_lookup n ndev' :
  h' !! n = Some ndev' →
  ∃ ndev, h !! n = Some ndev ∧ os_devtype ndev = os_devtype ndev' ∧
          tree_kids ndev' ⊆ tree_kids ndev.
Proof using Hp Hkids.
  destruct (decide (n = p)) as [->|Hne].
  - rewrite lookup_insert_eq. intros [= <-]. by exists pdev.
  - rewrite lookup_insert_ne by done. intros Hn. by exists ndev'.
Qed.

Lemma shrink_reach a n : reach h' a n → reach h a n.
Proof using Hp Hkids.
  induction 1 as [|a key c n (dev' & Ha & Hc) _ IH]; [constructor|].
  destruct (shrink_lookup a dev' Ha) as (dev & Ha0 & _ & Hsub).
  apply (reach_kid h a key c n); [|done].
  exists dev. split; [done|]. by apply (lookup_weaken (tree_kids dev')).
Qed.

Lemma shrink_subtree_within d a :
  subtree_within d h a = true → subtree_within d h' a = true.
Proof using Hp Hkids.
  revert a. induction d as [|d IH]; intros a Hd; [done|].
  destruct (subtree_within_lookup _ _ _ Hd) as (_ & dev & _ & Ha).
  rewrite (subtree_within_S _ _ _ _ Ha) in Hd.
  assert (∃ dev', h' !! a = Some dev' ∧ tree_kids dev' ⊆ tree_kids dev)
    as (dev' & Ha' & Hsub).
  { destruct (decide (a = p)) as [->|Hne].
    - eexists. rewrite lookup_insert_eq. split; [done|]. simpl.
      assert (dev = pdev) as -> by congruence. exact Hkids.
    - exists dev. by rewrite lookup_insert_ne. }
  apply (subtree_within_S _ _ _ _ Ha'). intros key c Hc.
  apply IH, (Hd key). by apply (lookup_weaken (tree_kids dev')).
Qed.

Lemma shrink_has_type_false d a mask :
  subtree_within d h a = true →
  ldm_device_has_type d h (Some a) mask = Some false →
  ldm_device_has_type d h' (Some a) mask = Some false.
Proof using Hp Hkids.
  intros Hd Hfalse.
  destruct (ldm_device_has_type_within d h' a mask (shrink_subtree_within d a Hd))
    as (b' & Hb' & Hiff').
  rewrite Hb'. f_equal. destruct b'; [|done].
  destruct (proj1 Hiff' eq_refl) as (n & ndev' & Hr & Hn & Hm).
  destruct (shrink_lookup n ndev' Hn) as (ndev & Hn0 & Hty & _).
  destruct (ldm_device_has_type_within d h a mask Hd) as (b & Hb & Hiff).
  assert (b = true) as ->.
  { apply Hiff. exists n, ndev. split; [by apply shrink_reach|]. split; [done|].
    unfold matches in *. by rewrite Hty. }
  congruence.
Qed.

End Shrink.

(** X25.  Removing a child never makes a device report a type it did not
    report: when [ldm_device_has_type] is [FALSE] on a node with a finite
    subtree, it is still [FALSE] after [ldm_device_remove_child_by_path]
    on that node or on any node below it. *)
Theorem removal_never_adds_a_type (h : heap) (a p : loc) (pdev : LdmDevice)
    (path : string) (d : nat) (mask : Z) :
  h !! p = Some pdev →
  reach h a p →
  subtree_within d h a = true →
  ldm_device_has_type d h (Some a) mask = Some false →
  ∃ h' : heap,
    ldm_device_remove_child_by_path h (Some p) (Some path) = Some h' ∧
    ldm_device_has_type d h' (Some a) mask = Some false.
Proof.
  intros Hp _ Hd Hfalse. eexists.
  split; [by apply remove_child_by_path_store|].
  apply (shrink_has_type_false h p pdev _ Hp (delete_subseteq _ _) d a mask Hd Hfalse).
Qed.

(** ** Instances of the further properties *)

Lemma example_added_eq :
  ldm_device_add_child example_store (Some 1%positive) (Some 3%positive)
  = Some example_added_store.
Proof. vm_compute. reflexivity. Qed.

Lemma example_build_eq :
  run_calls no_subclass_init example_pci_init_private
    no_init_private no_init_private no_init_private example_build_calls ∅
  = Some example_built_store.
Proof. vm_compute. reflexivity. Qed.

Lemma remove_child_by_path_removes_one_entry_witness :
  example_store !! 1%positive = Some example_root ∧
  ∃ (h' : gmap positive LdmDevice) (pdev' : LdmDevice),
    ldm_device_remove_child_by_path example_store (Some 1%positive)
      (Some example_child_path) = Some h' ∧
    ldm_device_get_child_by_path h' (Some 1%positive) (Some example_child_path)
    = Some None ∧
    (∀ key, key ≠ example_child_path →
            ldm_device_get_child_by_path h' (Some 1%positive) (Some key) =
            ldm_device_get_child_by_path example_store (Some 1%positive) (Some key)) ∧
    h' !! 1%positive = Some pdev' ∧
    set_tree_kids (tree_kids example_root) pdev' = example_root.
Proof.
  split; [reflexivity|].
  apply (remove_child_by_path_removes_one_entry example_store 1%positive example_root
           example_child_path). reflexivity.
Defined.

Lemma add_child_changes_one_entry_witness :
  (example_store !! 1%positive = Some example_root ∧
   example_store !! 3%positive = Some example_replacement ∧
   os_sysfs_path example_replacement = Some example_child_path) ∧
  ∃ (h' : gmap positive LdmDevice) (pdev' : LdmDevice),
    ldm_device_add_child example_store (Some 1%positive) (Some 3%positive) = Some h' ∧
    (∀ key, key ≠ example_child_path →
            ldm_device_get_child_by_path h' (Some 1%positive) (Some key) =
            ldm_device_get_child_by_path example_store (Some 1%positive) (Some key)) ∧
    h' !! 1%positive = Some pdev' ∧
    set_tree_kids (tree_kids example_root) pdev' = example_root.
Proof.
  split; [by repeat split|].
  apply (add_child_changes_one_entry example_store 1%positive 3%positive example_root
           example_replacement example_child_path); reflexivity.
Defined.

Lemma add_then_remove_restores_witness :
  (example_store !! 2%positive = Some example_child ∧
   example_store !! 3%positive = Some example_replacement ∧
   os_sysfs_path example_replacement = Some example_child_path ∧
   tree_kids example_child !! example_child_path = None) ∧
  ∃ h' h'' : gmap positive LdmDevice,
    ldm_device_add_child example_store (Some 2%positive) (Some 3%positive) = Some h' ∧
    ldm_device_remove_child_by_path h' (Some 2%positive) (Some example_child_path)
    = Some h'' ∧
    ldm_device_remove_child h' (Some 2%positive) (Some 3%positive) = Some h'' ∧
    h'' !! 2%positive = Some example_child.
Proof.
  split; [by repeat split|].
  apply (add_then_remove_restores example_store 2%positive 3%positive example_child
           example_replacement example_child_path); reflexivity.
Defined.

Lemma add_child_twice_is_once_witness :
  ldm_device_add_child example_store (Some 1%positive) (Some 3%positive)
  = Some example_added_store ∧
  ldm_device_add_child example_added_store (Some 1%positive) (Some 3%positive)
  = Some example_added_store.
Proof.
  split; [exact example_added_eq|].
  apply (add_child_twice_is_once example_store 1%positive (Some 3%positive)
           example_added_store). exact example_added_eq.
Defined.

Lemma tree_calls_defined_iff_witness :
  example_store !! 1%positive = Some example_root ∧
  (is_Some (ldm_device_add_child example_store (Some 1%positive) None) ↔
   ∃ c cdev key,
     None = Some c ∧ example_store !! c = Some cdev ∧ os_sysfs_path cdev = Some key) ∧
  (is_Some (ldm_device_remove_child example_store (Some 1%positive) None) ↔
   ∃ c cdev key,
     None = Some c ∧ example_store !! c = Some cdev ∧ os_sysfs_path cdev = Some key) ∧
  (is_Some (ldm_device_remove_child_by_path example_store (Some 1%positive) None)
   ↔ is_Some (@None string)) ∧
  (is_Some (ldm_device_get_child_by_path example_store (Some 1%positive) None)
   ↔ is_Some (@None string)).
Proof.
  split; [reflexivity|].
  apply (tree_calls_defined_iff example_store 1%positive example_root None None).
  reflexivity.
Defined.

Lemma get_children_lists_the_entries_witness :
  example_store !! 1%positive = Some example_root ∧
  ∃ children : list positive,
    ldm_device_get_children example_store (Some 1%positive) = Some children ∧
    (∀ c, c ∈ children ↔
          ∃ path, ldm_device_get_child_by_path example_store (Some 1%positive)
                    (Some path) = Some (Some c)) ∧
    (keyed_by_path example_store → NoDup children).
Proof.
  split; [reflexivity|].
  apply (get_children_lists_the_entries example_store 1%positive example_root).
  reflexivity.
Defined.

Lemma lookup_by_path_returns_that_path_witness :
  initialisers_keep_header no_subclass_init example_pci_init_private
    no_init_private no_init_private no_init_private ∧
  run_calls no_subclass_init example_pci_init_private
    no_init_private no_init_private no_init_private example_build_calls ∅
  = Some example_built_store ∧
  ldm_device_get_child_by_path example_built_store (Some 1%positive)
    (Some "/sys/devices/pci0000:00/0000:00:1f.3") = Some (Some 2%positive) ∧
  ldm_device_get_path example_built_store (Some 2%positive)
  = Some (Some "/sys/devices/pci0000:00/0000:00:1f.3").
Proof.
  split; [exact example_initialisers_keep_header|].
  split; [exact example_build_eq|].
  assert (Hget : ldm_device_get_child_by_path example_built_store (Some 1%positive)
                   (Some "/sys/devices/pci0000:00/0000:00:1f.3")
                 = Some (Some 2%positive)) by (vm_compute; reflexivity).
  split; [exact Hget|].
  apply (lookup_by_path_returns_that_path no_subclass_init example_pci_init_private
           no_init_private no_init_private no_init_private
           example_build_calls example_built_store 1%positive 2%positive
           "/sys/devices/pci0000:00/0000:00:1f.3").
  - exact example_initialisers_keep_header.
  - exact example_build_eq.
  - exact Hget.
Defined.

Lemma add_child_to_itself_makes_queries_diverge_witness :
  (example_store !! 2%positive = Some example_child ∧
   tree_kids example_child = ∅ ∧
   os_sysfs_path example_child = Some example_child_path ∧
   Z.land (os_devtype example_child) LDM_DEVICE_TYPE_GPU ≠ LDM_DEVICE_TYPE_GPU) ∧
  ∃ h' : gmap positive LdmDevice,
    ldm_device_add_child example_store (Some 2%positive) (Some 2%positive) = Some h' ∧
    (∀ d, ldm_device_has_type d h' (Some 2%positive) LDM_DEVICE_TYPE_GPU = None) ∧
    (Z.land (os_attributes example_child) LDM_DEVICE_TYPE_GPU ≠ LDM_DEVICE_TYPE_GPU →
     ∀ d, ldm_device_has_attribute d h' (Some 2%positive) LDM_DEVICE_TYPE_GPU = None) ∧
    (∀ d, subtree_within d h' 2%positive = false).
Proof.
  split; [by repeat split|].
  apply (add_child_to_itself_makes_queries_diverge example_store 2%positive
           example_child example_child_path LDM_DEVICE_TYPE_GPU);
    first [reflexivity | discriminate].
Defined.

Lemma has_type_of_a_submask_witness :
  (subtree_within 2 example_store 1%positive = true ∧
   Z.land (Z.lor LDM_DEVICE_TYPE_PCI LDM_DEVICE_TYPE_GPU) LDM_DEVICE_TYPE_GPU
   = LDM_DEVICE_TYPE_GPU ∧
   ldm_device_has_type 2 example_store (Some 1%positive)
     (Z.lor LDM_DEVICE_TYPE_PCI LDM_DEVICE_TYPE_GPU) = Some true) ∧
  ldm_device_has_type 2 example_store (Some 1%positive) LDM_DEVICE_TYPE_GPU = Some true.
Proof.
  split; [by repeat split|].
  apply (has_type_of_a_submask example_store 2 1%positive
           (Z.lor LDM_DEVICE_TYPE_PCI LDM_DEVICE_TYPE_GPU) LDM_DEVICE_TYPE_GPU);
    reflexivity.
Defined.

Lemma example_store_reach_child : reach example_store 1%positive 2%positive.
Proof.
  apply (kid_reach example_store 1%positive example_child_path 2%positive).
  by exists example_root.
Qed.

Lemma has_type_rises_to_ancestors_witness :
  (subtree_within 2 example_store 1%positive = true ∧
   reach example_store 1%positive 2%positive ∧
   ldm_device_has_type 1 example_store (Some 2%positive) LDM_DEVICE_TYPE_HID
   = Some true) ∧
  ldm_device_has_type 2 example_store (Some 1%positive) LDM_DEVICE_TYPE_HID = Some true.
Proof.
  split; [split; [reflexivity|split; [exact example_store_reach_child|reflexivity]]|].
  apply (has_type_rises_to_ancestors example_store 2 1 1%positive 2%positive
           LDM_DEVICE_TYPE_HID);
    [reflexivity | exact example_store_reach_child | reflexivity].
Defined.

Lemma queries_on_a_leaf_witness :
  (example_store !! 2%positive = Some example_child ∧ tree_kids example_child = ∅) ∧
  ∃ devtype attributes : Z,
    ldm_device_get_device_type example_store (Some 2%positive) = Some devtype ∧
    ldm_device_get_attributes example_store (Some 2%positive) = Some attributes ∧
    ldm_device_has_type 1 example_store (Some 2%positive) LDM_DEVICE_TYPE_HID
    = Some (Z.land devtype LDM_DEVICE_TYPE_HID =? LDM_DEVICE_TYPE_HID) ∧
    ldm_device_has_attribute 1 example_store (Some 2%positive) LDM_DEVICE_TYPE_HID
    = Some (Z.land attributes LDM_DEVICE_TYPE_HID =? LDM_DEVICE_TYPE_HID).
Proof.
  split; [by split|].
  apply (queries_on_a_leaf example_store 2%positive example_child 0
           LDM_DEVICE_TYPE_HID); reflexivity.
Defined.

Lemma added_child_type_shows_on_parent_witness :
  (example_store !! 1%positive = Some example_root ∧
   example_store !! 3%positive = Some example_replacement ∧
   os_sysfs_path example_replacement = Some example_child_path ∧
   Z.land (os_devtype example_replacement) LDM_DEVICE_TYPE_STORAGE
   = LDM_DEVICE_TYPE_STORAGE) ∧
  ∃ h' : gmap positive LdmDevice,
    ldm_device_add_child example_store (Some 1%positive) (Some 3%positive) = Some h' ∧
    (subtree_within 2 h' 1%positive = true →
     ldm_device_has_type 2 h' (Some 1%positive) LDM_DEVICE_TYPE_STORAGE = Some true).
Proof.
  split; [by repeat split|].
  apply (added_child_type_shows_on_parent example_store 1%positive 3%positive
           example_root example_replacement example_child_path
           LDM_DEVICE_TYPE_STORAGE 2); reflexivity.
Defined.

Lemma queries_ignore_attributes_below_witness :
  example_store !! 2%positive = Some example_child ∧
  (2%positive ≠ 1%positive →
   ldm_device_has_attribute 2
     (<[2%positive := set_os_attributes LDM_DEVICE_ATTRIBUTE_INTERFACE example_child]>
        example_store) (Some 1%positive) LDM_DEVICE_ATTRIBUTE_INTERFACE =
   ldm_device_has_attribute 2 example_store (Some 1%positive)
     LDM_DEVICE_ATTRIBUTE_INTERFACE) ∧
  ldm_device_has_type 2
    (<[2%positive := set_os_attributes LDM_DEVICE_ATTRIBUTE_INTERFACE example_child]>
       example_store) (Some 1%positive) LDM_DEVICE_ATTRIBUTE_INTERFACE =
  ldm_device_has_type 2 example_store (Some 1%positive) LDM_DEVICE_ATTRIBUTE_INTERFACE.
Proof.
  split; [reflexivity|].
  apply (queries_ignore_attributes_below example_store 1%positive 2%positive
           example_child LDM_DEVICE_ATTRIBUTE_INTERFACE 2 LDM_DEVICE_ATTRIBUTE_INTERFACE).
  reflexivity.
Defined.

Lemma fallback_name_identifies_product_id_witness :
  (id_name (example_unnamed 16) = None ∧ id_name (example_unnamed (16 + 2 ^ 32)) = None) ∧
  (id_name (name_fallback (example_unnamed 16))
   = id_name (name_fallback (example_unnamed (16 + 2 ^ 32))) ↔
   id_product_id (example_unnamed 16) `mod` 2 ^ 32
   = id_product_id (example_unnamed (16 + 2 ^ 32)) `mod` 2 ^ 32).
Proof.
  split; [by split|].
  apply (fallback_name_identifies_product_id (example_unnamed 16)
           (example_unnamed (16 + 2 ^ 32))); reflexivity.
Defined.

Lemma constructed_device_has_a_name_witness :
  example_new (Some "pci") = Some (4%positive, example_new_store) ∧
  ∃ name : string,
    ldm_device_get_name example_new_store (Some 4%positive) = Some (Some name).
Proof.
  split; [exact example_new_eq|].
  apply (constructed_device_has_a_name no_subclass_init example_pci_init_private
           no_init_private no_init_private no_init_private
           example_store (Some 1%positive) (example_udev (Some "pci"))
           example_properties 4%positive example_new_store).
  exact example_new_eq.
Defined.

Lemma construction_leaves_the_store_alone_witness :
  example_new (Some "pci") = Some (4%positive, example_new_store) ∧
  example_store !! 4%positive = None ∧ is_Some (example_new_store !! 4%positive) ∧
  (∀ q, q ≠ 4%positive → example_new_store !! q = example_store !! q) ∧
  (∀ d self mask b,
     ldm_device_has_type d example_store self mask = Some b →
     ldm_device_has_type d example_new_store self mask = Some b) ∧
  (∀ d self mask b,
     ldm_device_has_attribute d example_store self mask = Some b →
     ldm_device_has_attribute d example_new_store self mask = Some b) ∧
  (∀ p path r,
     ldm_device_get_child_by_path example_store (Some p) path = Some r →
     ldm_device_get_child_by_path example_new_store (Some p) path = Some r).
Proof.
  split; [exact example_new_eq|].
  apply (construction_leaves_the_store_alone no_subclass_init example_pci_init_private
           no_init_private no_init_private no_init_private
           example_store (Some 1%positive) (example_udev (Some "pci"))
           example_properties 4%positive example_new_store).
  exact example_new_eq.
Defined.

Lemma constructed_device_is_unattached_witness :
  (initialisers_keep_header no_subclass_init example_pci_init_private
     no_init_private no_init_private no_init_private ∧
   keyed_by_path example_store ∧
   example_new (Some "pci") = Some (4%positive, example_new_store)) ∧
  (∀ q path, ldm_device_get_child_by_path example_new_store (Some q) (Some path)
             ≠ Some (Some 4%positive)) ∧
  ldm_device_get_children example_new_store (Some 4%positive) = Some [] ∧
  ldm_device_get_parent example_new_store (Some 4%positive) = Some (Some 1%positive).
Proof.
  split; [split; [exact example_initialisers_keep_header|
                  split; [exact example_store_keyed | exact example_new_eq]]|].
  apply (constructed_device_is_unattached no_subclass_init example_pci_init_private
           no_init_private no_init_private no_init_private
           example_store (Some 1%positive) (example_udev (Some "pci"))
           example_properties 4%positive example_new_store).
  - exact example_initialisers_keep_header.
  - exact example_store_keyed.
  - exact example_new_eq.
Defined.

Lemma hid_and_wifi_run_no_init_private_witness :
  (udev_device_get_subsystem (example_udev (Some "hid")) = Some "hid" ∧
   ("hid" = "hid" ∨ "hid" = "ieee80211")) ∧
  ldm_device_new_from_udev no_subclass_init example_pci_init_private
    example_pci_init_private example_pci_init_private example_pci_init_private
    example_store None (example_udev (Some "hid")) example_properties =
  ldm_device_new_from_udev no_subclass_init no_init_private no_init_private
    no_init_private no_init_private
    example_store None (example_udev (Some "hid")) example_properties.
Proof.
  split; [split; [reflexivity | by left]|].
  apply (hid_and_wifi_run_no_init_private no_subclass_init example_pci_init_private
           example_pci_init_private example_pci_init_private example_pci_init_private
           example_store None (example_udev (Some "hid")) example_properties "hid");
    [reflexivity | by left].
Defined.

Lemma plain_device_after_construction_witness :
  (udev_device_get_subsystem (example_udev (Some "nonsense")) = Some "nonsense" ∧
   special_type_of "nonsense" = LDM_TYPE_DEVICE) ∧
  ∃ h' : gmap positive LdmDevice,
    example_new (Some "nonsense") = Some (4%positive, h') ∧
    ldm_device_get_path h' (Some 4%positive)
    = Some (Some "/sys/devices/pci0000:00/0000:00:1f.3") ∧
    ldm_device_get_modalias h' (Some 4%positive) = Some (Some "pci:v00008086d00000010") ∧
    ldm_device_get_product_id h' (Some 4%positive) = Some 0.
Proof.
  split; [by split|].
  assert (∃ h', example_new (Some "nonsense") = Some (4%positive, h')) as [h' Hnew]
    by (eexists; reflexivity).
  exists h'. split; [exact Hnew|].
  destruct (plain_device_after_construction no_subclass_init example_pci_init_private
              no_init_private no_init_private no_init_private
              example_store (Some 1%positive) (example_udev (Some "nonsense"))
              example_properties "nonsense" 4%positive h' eq_refl eq_refl Hnew)
    as (Hpath & Hmod & _ & _ & _ & _ & _ & Hpid).
  split; [exact Hpath|]. split; [exact Hmod | exact Hpid].
Defined.

Lemma properties_read_what_the_accessors_return_witness :
  (example_store !! 1%positive = Some example_root ∧
   (1 ≤ PROP_PRODUCT_ID < N_PROPS)%nat) ∧
  ∃ pspec : GParamSpec,
    ldm_device_class_init !! PROP_PRODUCT_ID = Some (Some pspec) ∧
    pspec_name pspec = "product-id" ∧
    ∃ value : GValue,
      ldm_device_get_property example_root PROP_PRODUCT_ID
        (g_value_init (pspec_value_type pspec)) = (value, false) ∧
      GValueInt <$> ldm_device_get_product_id example_store (Some 1%positive)
      = Some value.
Proof.
  split; [split; [reflexivity | unfold PROP_PRODUCT_ID, N_PROPS; lia]|].
  destruct (properties_read_what_the_accessors_return example_store 1%positive
              example_root PROP_PRODUCT_ID eq_refl
              ltac:(unfold PROP_PRODUCT_ID, N_PROPS; lia))
    as (_ & pspec & Hspec & _ & value & Hget & _ & _ & _ & _ & _ & _ & Hpid & _).
  exists pspec. split; [exact Hspec|].
  assert (pspec_name pspec = "product-id") as Hname.
  { vm_compute in Hspec. by injection Hspec as <-. }
  split; [exact Hname|]. exists value. split; [exact Hget|]. exact (Hpid Hname).
Defined.

Lemma removal_never_adds_a_type_witness :
  (example_store !! 1%positive = Some example_root ∧
   reach example_store 1%positive 1%positive ∧
   subtree_within 2 example_store 1%positive = true ∧
   ldm_device_has_type 2 example_store (Some 1%positive) LDM_DEVICE_TYPE_STORAGE
   = Some false) ∧
  ∃ h' : gmap positive LdmDevice,
    ldm_device_remove_child_by_path example_store (Some 1%positive)
      (Some example_child_path) = Some h' ∧
    ldm_device_has_type 2 h' (Some 1%positive) LDM_DEVICE_TYPE_STORAGE = Some false.
Proof.
  split; [split; [reflexivity|split; [constructor|by split]]|].
  apply (removal_never_adds_a_type example_store 1%positive 1%positive example_root
           example_child_path 2 LDM_DEVICE_TYPE_STORAGE);
    [reflexivity | constructor | reflexivity | reflexivity].
Defined.

Lemma unknown_property_ids_are_rejected_witness :
  ¬ (1 ≤ N_PROPS < N_PROPS)%nat ∧
  (∀ pspec, ldm_device_class_init !! N_PROPS ≠ Some (Some pspec)) ∧
  ldm_device_get_property example_root N_PROPS (GValueInt 7) = (GValueInt 7, true) ∧
  ldm_device_set_property example_root N_PROPS (GValuePointer (Some 2%positive))
  = (example_root, true).
Proof.
  split; [lia|].
  destruct (unknown_property_ids_are_rejected example_root N_PROPS (GValueInt 7)
              ltac:(lia)) as (Hspec & Hget & _).
  destruct (unknown_property_ids_are_rejected example_root N_PROPS
              (GValuePointer (Some 2%positive)) ltac:(lia)) as (_ & _ & Hset).
  split; [exact Hspec|]. split; [exact Hget | exact Hset].
Defined.

Lemma device_added_logs_the_composite_witness :
  subtree_within 2 example_store 1%positive = true ∧
  ldm_daemon_device_added 2 example_store (Some 1%positive)
  = Some [g_message "ldm_daemon_device_added(): %s %s" [None; Some "GPU"];
          g_message "HID device!" []] ∧
  ∃ (vendor name : option string) (hid storage : bool),
    ldm_device_get_vendor example_store (Some 1%positive) = Some vendor ∧
    ldm_device_get_name example_store (Some 1%positive) = Some name ∧
    ldm_daemon_device_added 2 example_store (Some 1%positive)
    = Some (g_message "ldm_daemon_device_added(): %s %s" [vendor; name]
            :: app (if hid then [g_message "HID device!" []] else [])
                   (if storage then [g_message "Storage device!" []] else [])) ∧
    (hid = true ↔
     ∃ n ndev, reach example_store 1%positive n ∧ example_store !! n = Some ndev ∧
               Z.land (os_devtype ndev) LDM_DEVICE_TYPE_HID = LDM_DEVICE_TYPE_HID) ∧
    (storage = true ↔
     ∃ n ndev, reach example_store 1%positive n ∧ example_store !! n = Some ndev ∧
               Z.land (os_devtype ndev) LDM_DEVICE_TYPE_STORAGE
               = LDM_DEVICE_TYPE_STORAGE).
Proof.
  split; [reflexivity|]. split; [reflexivity|].
  apply (device_added_logs_the_composite example_store 2 1%positive). reflexivity.
Defined.

Lemma hwdb_copy_binds_the_list_witness :
  NoDup example_properties.*1 ∧
  os_hwdb_info (hwdb_phase example_properties example_child) !! "ID_VENDOR"
  = Some "Acme".
Proof.
  assert (NoDup example_properties.*1) as Hnd
    by (apply (bool_decide_unpack _); by vm_compute).
  split; [exact Hnd|].
  destruct (hwdb_copy_binds_the_list example_properties example_child)
    as (_ & _ & Hbound).
  apply (Hbound Hnd "ID_VENDOR" "Acme").
  apply list_elem_of_further, list_elem_of_here.
Defined.
